(** * CareerMate: the three career tools, the result dispatch of [main]
      and the routing session

    Shallow embedding of [careermate.py].

    - A Python [str] is a [string]: a sequence of characters, each a
      code point below 256.  [lower] is [str.lower] on that range and
      [str_in] is the substring test [a in b].
    - The module-level tables [JOB_SKILLS], [JOB_LISTINGS] and [COURSES]
      are the fields of one record of globals.  A tool is a computation
      in a state monad over that record, so that "the tool does not
      write the tables" is a statement about the tool and not about the
      type it was given.
    - A dict used as a map ([JOB_SKILLS], [COURSES], the dict returned by
      [get_missing_skills]) is a [gmap] with string keys; a dict used as
      a struct (a job listing, a course recommendation) is a record. *)

From Stdlib Require Import Ascii String.
From stdpp Require Import base option list strings pretty gmap fin_maps.

#[local] Set Warnings "-register-all".

Local Open Scope string_scope.
Local Open Scope list_scope.

(** ** Python strings *)

Module PyStr.

(** [str.lower] on one character.  Below 256 the upper-case letters are
    [A]..[Z] (65..90) and the Latin-1 capitals 192..222 except the
    multiplication sign 215; each is 32 below its lower-case letter. *)
Definition lower_char (c : ascii) : ascii :=
  let n := nat_of_ascii c in
  if (((65 <=? n) && (n <=? 90))
      || ((192 <=? n) && (n <=? 222) && negb (n =? 215)))%nat
  then ascii_of_nat (n + 32)
  else c.

Fixpoint lower (s : string) : string :=
  match s with
  | EmptyString => EmptyString
  | String c s' => String (lower_char c) (lower s')
  end.

(** [b.startswith(a)] *)
Fixpoint startswith (a b : string) : bool :=
  match a, b with
  | EmptyString, _ => true
  | String x a', String y b' => bool_decide (x = y) && startswith a' b'
  | String _ _, EmptyString => false
  end.

(** [a in b] for two strings: [a] occurs in [b] at some offset. *)
Fixpoint str_in (a b : string) : bool :=
  startswith a b ||
  match b with
  | EmptyString => false
  | String _ b' => str_in a b'
  end.

(** [sep.join(l)] *)
Fixpoint join (sep : string) (l : list string) : string :=
  match l with
  | [] => ""
  | [x] => x
  | x :: l' => x +:+ sep +:+ join sep l'
  end.

(** Truth value of a string: the empty string is falsy. *)
Definition truthy (s : string) : bool :=
  match s with EmptyString => false | _ => true end.

End PyStr.

Import PyStr.

(** ** Models for structured outputs *)

Module Models.

Record SkillGap := mkSkillGap {
  target_job : string;
  missing_skills : list string;
  explanation : string
}.

Record JobListing := mkJobListing {
  title : string;
  company : string;
  location : string;
  requirements : list string
}.

Record CourseRecommendation := mkCourseRecommendation {
  skill : string;
  courses : list string
}.

End Models.

(** ** Data *)

(** A value stored in the dict that [get_missing_skills] returns. *)
Inductive value :=
  | Str (s : string)
  | StrList (l : list string).

#[global] Instance value_eq_dec : EqDecision value.
Proof. solve_decision. Defined.

(** An entry of [JOB_LISTINGS]: a dict with the four keys below. *)
Record Job := mkJob {
  title : string;
  company : string;
  location : string;
  skills : list string
}.

#[global] Instance Job_eq_dec : EqDecision Job.
Proof. solve_decision. Defined.

(** An entry of the list [recommend_courses] returns. *)
Record Recommendation := mkRecommendation {
  skill : string;
  courses : list string
}.

#[global] Instance Recommendation_eq_dec : EqDecision Recommendation.
Proof. solve_decision. Defined.

(** The module-level tables. *)
Record Globals := mkGlobals {
  JOB_SKILLS : gmap string (list string);
  JOB_LISTINGS : list Job;
  COURSES : gmap string (list string)
}.

(** The tables as the module body leaves them. *)
Definition module_globals : Globals := {|
  JOB_SKILLS :=
    <["data scientist" := ["Python"; "SQL"; "Statistics"; "Machine Learning"; "Pandas"]]>
    (<["web developer" := ["HTML"; "CSS"; "JavaScript"; "React"; "Node.js"]]>
    (<["data analyst" := ["Excel"; "SQL"; "Power BI"; "Python"; "Statistics"]]> ∅));
  JOB_LISTINGS :=
    [ mkJob "Junior Data Scientist" "TechCorp" "Remote" ["Python"; "SQL"];
      mkJob "Web Developer" "WebWorld" "New York" ["JavaScript"; "React"];
      mkJob "Data Analyst" "DataWorks" "San Francisco" ["Excel"; "SQL"; "Python"] ];
  COURSES :=
    <["SQL" := ["SQL for Beginners (Coursera) - https://example.com/sql";
                "Learn SQL (Udemy) - https://example.com/sql2"]]>
    (<["Statistics" := ["Intro to Statistics (Khan Academy) - https://example.com/stat"]]>
    (<["Pandas" := ["Data Analysis with Pandas (YouTube) - https://example.com/pandas"]]>
    (<["Python" := ["Python 101 (Codecademy) - https://example.com/py"]]>
    (<["React" := ["React Crash Course (Ostad) - https://ostad.app/course/react-native-workshop"]]> ∅))))
|}.

(** ** Computations over the globals *)

Definition Py (A : Type) : Type := Globals → A * Globals.

#[global] Instance Py_ret : MRet Py := λ A (x : A) g, (x, g).
#[global] Instance Py_bind : MBind Py :=
  λ A B (f : A → Py B) (m : Py A) g, let '(x, g') := m g in f x g'.

(** Reading a module-level name. *)
Definition global {A} (name : Globals → A) : Py A := λ g, (name g, g).

(** [for x in l: acc = body x acc] *)
Fixpoint for_in {A S} (l : list A) (body : A → S → Py S) (acc : S) : Py S :=
  match l with
  | [] => mret acc
  | x :: l' => acc' ← body x acc; for_in l' body acc'
  end.

(** The value a call returns and the globals it leaves. *)
Definition returns {A} (m : Py A) (g : Globals) : A := (m g).1.
Definition leaves {A} (m : Py A) (g : Globals) : Globals := (m g).2.

(** ** Tools *)

(** Truth value of the result of [dict.get]: [None] and the empty list
    are falsy. *)
Definition truthy_list {A} (o : option (list A)) : bool :=
  match o with
  | Some (_ :: _) => true
  | _ => false
  end.

Definition get_missing_skills (user_skills : list string) (target_job : string)
  : Py (gmap string value) :=
  table ← global JOB_SKILLS;
  let required_skills := table !! lower target_job in
  if negb (truthy_list required_skills) then
    mret {[ "error" := Str ("No data for job: " +:+ target_job) ]}
  else
    let missing :=
      filter (λ skill, skill ∉ user_skills) (default [] required_skills) in
    mret (<["target_job" := Str target_job]>
          (<["missing_skills" := StrList missing]>
          (<["explanation" :=
              Str ("To become a " +:+ target_job +:+ ", you need to learn: "
                   +:+ join ", " missing)]> ∅))).

Definition find_jobs (user_skills : list string) (location_ : option string)
  : Py (list Job) :=
  listings ← global JOB_LISTINGS;
  for_in listings (λ job matches,
    if forallb (λ skill, bool_decide (skill ∈ user_skills)) (skills job) then
      match location_ with
      | Some loc =>
          if truthy loc && negb (str_in (lower loc) (lower (location job)))
          then mret matches
          else mret (matches ++ [job])
      | None => mret (matches ++ [job])
      end
    else mret matches) [].

Definition recommend_courses (missing_skills : list string)
  : Py (list Recommendation) :=
  for_in missing_skills (λ skill recommendations,
    table ← global COURSES;
    let courses := table !! skill in
    if truthy_list courses then
      mret (recommendations ++ [mkRecommendation skill (default [] courses)])
    else mret recommendations) [].

(** ** The tests inside the loops *)

(** The test [find_jobs] applies to one listing. *)
Definition job_matches (user_skills : list string) (location_ : option string)
    (job : Job) : bool :=
  forallb (λ skill, bool_decide (skill ∈ user_skills)) (skills job)
  && match location_ with
     | Some loc => negb (truthy loc && negb (str_in (lower loc) (lower (location job))))
     | None => true
     end.

(** The entry [recommend_courses] makes for one skill, if any. *)
Definition catalog_entry (g : Globals) (skill : string) : option Recommendation :=
  match COURSES g !! skill with
  | Some (c :: courses) => Some (mkRecommendation skill (c :: courses))
  | _ => None
  end.

(** ** The result dispatch of [main] *)

(** What [result.final_output] can be: the text of the controller agent,
    an instance of one of the three models, or a list of such objects. *)
Inductive object :=
  | OStr (s : string)
  | OSkillGap (x : Models.SkillGap)
  | OJobListing (x : Models.JobListing)
  | OCourseRecommendation (x : Models.CourseRecommendation)
  | OList (l : list object).

(** [isinstance(o, SkillGap)], [isinstance(o, JobListing)],
    [isinstance(o, CourseRecommendation)], [isinstance(o, list)] *)
Definition isinstance_SkillGap (o : object) : bool :=
  match o with OSkillGap _ => true | _ => false end.
Definition isinstance_JobListing (o : object) : bool :=
  match o with OJobListing _ => true | _ => false end.
Definition isinstance_CourseRecommendation (o : object) : bool :=
  match o with OCourseRecommendation _ => true | _ => false end.
Definition isinstance_list (o : object) : bool :=
  match o with OList _ => true | _ => false end.

(** The elements a [for] over the object visits, when it is a list. *)
Definition elements_of (o : object) : list object :=
  match o with OList l => l | _ => [] end.

(** [all(p(x) for x in o)] *)
Definition all (p : object → bool) (o : object) : bool := forallb p (elements_of o).

(** The three tests of the [if]/[elif] chain, in the order of the source. *)
Definition test_skill_gap (output : object) : bool :=
  isinstance_SkillGap output.
Definition test_job_listings (output : object) : bool :=
  isinstance_list output && all isinstance_JobListing output.
Definition test_course_recommendations (output : object) : bool :=
  isinstance_list output && all isinstance_CourseRecommendation output.

(** The section of the report [main] prints for an output. *)
Inductive section_ :=
  | SkillGapAnalysis
  | JobListings
  | CourseRecommendations
  | PlainOutput.

Definition main_section (output : object) : section_ :=
  if test_skill_gap output then SkillGapAnalysis
  else if test_job_listings output then JobListings
  else if test_course_recommendations output then CourseRecommendations
  else PlainOutput.

(** ** Settings read from the environment *)

(** [os.getenv(name)] on the environment [load_dotenv] has filled:
    [None] when the variable is not set. *)
Definition getenv (name : string) (environ : gmap string string) : option string :=
  environ !! name.

(** Truth value of the result of [os.getenv]: [None] and the empty
    string are falsy. *)
Definition truthy_env (o : option string) : bool :=
  match o with
  | Some s => truthy s
  | None => false
  end.

(** The three module-level names the client and the agents are built
    from. *)
Record Settings := mkSettings {
  BASE_URL : string;
  API_KEY : string;
  MODEL_NAME : string
}.

(** The head of the module: the three reads and the check that raises
    [ValueError], whose message is the left result. *)
Definition load_settings (environ : gmap string string) : string + Settings :=
  let BASE_URL := getenv "BASE_URL" environ in
  let API_KEY := getenv "API_KEY" environ in
  let MODEL_NAME := getenv "MODEL_NAME" environ in
  if negb (truthy_env BASE_URL) || negb (truthy_env API_KEY)
     || negb (truthy_env MODEL_NAME)
  then inl "Please set BASE_URL, API_KEY, and MODEL_NAME."
  else inr (mkSettings (default "" BASE_URL) (default "" API_KEY)
                       (default "" MODEL_NAME)).

(** ** What [main] prints *)

(** The newline character, and [s * n]. *)
Definition newline : string := String (ascii_of_nat 10) "".

Fixpoint repeat_str (s : string) (n : nat) : string :=
  match n with
  | 0 => ""
  | S n' => s +:+ repeat_str s n'
  end.

(** [enumerate(l, start)] *)
Fixpoint enumerate {A} (l : list A) (start : nat) : list (nat * A) :=
  match l with
  | [] => []
  | x :: l' => (start, x) :: enumerate l' (S start)
  end.

(** The three headings.  Their pictograms lie outside the characters a
    [string] holds one by one; they are kept as the bytes of the source
    file, and nothing but [print] touches them. *)
Definition skill_gap_heading : string := newline +:+ "üîç SKILL GAP ANALYSIS".
Definition job_listings_heading : string := newline +:+ "üíº JOB LISTINGS".
Definition course_recommendations_heading : string := newline +:+ "üìö COURSE RECOMMENDATIONS".

(** A run of [print] calls: the lines printed, and whether the run came
    to its end ([false]: an attribute access raised [AttributeError]
    after the lines were printed). *)
Definition printed : Type := list string * bool.

(** One run after another; the second does not start when the first
    raised. *)
Definition then_ (p : printed) (q : printed) : printed :=
  if p.2 then (p.1 ++ q.1, q.2) else p.

(** The body of the branch for a [SkillGap]. *)
Definition print_skill_gap (output : object) : printed :=
  match output with
  | OSkillGap x =>
      ([ skill_gap_heading;
         "Target Role: " +:+ Models.target_job x;
         "Missing Skills: " +:+ join ", " (Models.missing_skills x);
         "Note: " +:+ Models.explanation x ], true)
  | _ => ([skill_gap_heading], false)
  end.

(** The body of [for i, job in enumerate(output, 1)]. *)
Definition print_job (i : nat) (job : object) : printed :=
  match job with
  | OJobListing x =>
      ([ pretty i +:+ ". " +:+ Models.title x +:+ " at " +:+ Models.company x
           +:+ " (" +:+ Models.location x +:+ ")";
         "   Required Skills: " +:+ join ", " (Models.requirements x) ], true)
  | _ => ([], false)
  end.

Fixpoint print_jobs (jobs : list (nat * object)) : printed :=
  match jobs with
  | [] => ([], true)
  | (i, job) :: jobs' => then_ (print_job i job) (print_jobs jobs')
  end.

(** The body of [for i, course in enumerate(rec.courses, 1)]. *)
Definition print_course (i : nat) (course : string) : string :=
  "  " +:+ pretty i +:+ ". " +:+ course.

(** The body of [for rec in output]. *)
Definition print_recommendation (rec : object) : printed :=
  match rec with
  | OCourseRecommendation x =>
      ((newline +:+ "Skill: " +:+ Models.skill x)
         :: ((λ ic, print_course ic.1 ic.2) <$> enumerate (Models.courses x) 1),
       true)
  | _ => ([], false)
  end.

Fixpoint print_recommendations (recs : list object) : printed :=
  match recs with
  | [] => ([], true)
  | rec :: recs' => then_ (print_recommendation rec) (print_recommendations recs')
  end.

(** [print(output)] in the last branch prints [str(output)]: a [str] as
    it is, any other object as its class renders it, which [repr_]
    stands for. *)
Definition str_ (repr_ : object → string) (output : object) : string :=
  match output with
  | OStr s => s
  | _ => repr_ output
  end.

(** The [if]/[elif] chain with its bodies. *)
Definition print_output (repr_ : object → string) (output : object) : printed :=
  if test_skill_gap output then print_skill_gap output
  else if test_job_listings output then
    then_ ([job_listings_heading], true)
          (print_jobs (enumerate (elements_of output) 1))
  else if test_course_recommendations output then
    then_ ([course_recommendations_heading], true)
          (print_recommendations (elements_of output))
  else ([str_ repr_ output], true).

(** ** The loop of [main] *)

(** The queries [main] sends. *)
Definition queries : list string :=
  [ "I want to become a data scientist";
    "I know Python and SQL. Can you find me a job?";
    "How can I learn React and Pandas?" ].

(** How a run of [main] ends. *)
Inductive outcome (E : Type) :=
  | Finished
  | RunnerRaised (e : E)
  | AttributeError.
Arguments Finished {E}.
Arguments RunnerRaised {E} e.
Arguments AttributeError {E}.

(** The two prints that open an iteration. *)
Definition print_query (query : string) : list string :=
  [ newline +:+ repeat_str "=" 60; "QUERY: " +:+ query ].

(** [for query in queries: ...].  [Runner.run(conversation_agent, query)]
    belongs to the agents library: [run] stands for it, giving either
    the exception it raises or the [final_output] of its result. *)
Fixpoint main_loop {E} (run : string → E + object) (repr_ : object → string)
    (queries : list string) : list string * outcome E :=
  match queries with
  | [] => ([], Finished)
  | query :: queries' =>
      match run query with
      | inl e => (print_query query, RunnerRaised e)
      | inr output =>
          let p := print_output repr_ output in
          let lines := print_query query ++ [newline +:+ "FINAL RESPONSE:"] ++ p.1 in
          if p.2 then
            let rest := main_loop run repr_ queries' in
            (lines ++ rest.1, rest.2)
          else (lines, AttributeError)
      end
  end.

Definition main {E} (run : string → E + object) (repr_ : object → string)
  : list string * outcome E :=
  main_loop run repr_ queries.

(** What an iteration prints when it runs to its end on an output. *)
Definition print_iteration (repr_ : object → string) (query : string)
    (output : object) : list string :=
  print_query query ++ [newline +:+ "FINAL RESPONSE:"]
    ++ (print_output repr_ output).1.

(** ** The routing session *)

Module Session.

(** Modelled from the spec: the "structural value" of section 3, what
    the backend hands to a tool as arguments and what a tool and the
    summarizer hand back; the router that passes them on runs inside
    [Runner.run] of the agents library, which the source only calls. *)
Inductive sval :=
  | VStr (s : string)
  | VList (l : list sval)
  | VDict (fields : list (string * sval)).

(** Modelled from the spec: the shapes section 4.4 checks: a string, a
    list whose elements each pass the per-element check. *)
Definition as_str (v : sval) : option string :=
  match v with VStr s => Some s | _ => None end.

(** Modelled from the spec: a list-typed field of section 4.4; one
    element that violates its schema fails the list. *)
Definition as_list {A} (elem : sval → option A) (v : sval) : option (list A) :=
  match v with VList l => mapM elem l | _ => None end.

(** Modelled from the spec: a required field of section 4.4; [None]
    when the value is not a dict or the field is absent. *)
Definition field (name : string) (v : sval) : option sval :=
  match v with
  | VDict fields => snd <$> List.find (λ kv, bool_decide (kv.1 = name)) fields
  | _ => None
  end.

(** Modelled from the spec: the schema of the skill-gap variant
    (section 4.4), with the fields of the source's [SkillGap] model. *)
Definition as_SkillGap (v : sval) : option Models.SkillGap :=
  target_job ← field "target_job" v ≫= as_str;
  missing_skills ← field "missing_skills" v ≫= as_list as_str;
  explanation ← field "explanation" v ≫= as_str;
  Some (Models.mkSkillGap target_job missing_skills explanation).

(** Modelled from the spec: the per-element schema of the job-listing
    variant, with the fields of the source's [JobListing] model. *)
Definition as_JobListing (v : sval) : option Models.JobListing :=
  title ← field "title" v ≫= as_str;
  company ← field "company" v ≫= as_str;
  location ← field "location" v ≫= as_str;
  requirements ← field "requirements" v ≫= as_list as_str;
  Some (Models.mkJobListing title company location requirements).

(** Modelled from the spec: the per-element schema of the
    course-recommendation variant, with the fields of the source's
    [CourseRecommendation] model. *)
Definition as_CourseRecommendation (v : sval) : option Models.CourseRecommendation :=
  skill ← field "skill" v ≫= as_str;
  courses ← field "courses" v ≫= as_list as_str;
  Some (Models.mkCourseRecommendation skill courses).

(** Modelled from the spec: the output schema a handler declares (section
    3, "output_schema: tagged variant definition"); the source has the
    three [output_type]s of the specialist agents and leaves their
    enforcement to the agents library. *)
Inductive Schema :=
  | SkillGapSchema
  | JobListingsSchema
  | CourseRecommendationsSchema.

(** Modelled from the spec: the tagged union of section 3, one variant
    per handler output plus [Unhandled] with opaque text. *)
Inductive StructuredResult :=
  | SkillGapResult (x : Models.SkillGap)
  | JobListingResults (l : list Models.JobListing)
  | CourseRecommendationResults (l : list Models.CourseRecommendation)
  | Unhandled (text : string).

(** Modelled from the spec: the per-query errors of section 7 that arise
    once a handler is engaged. *)
Inductive Failure :=
  | UnknownTool (name : string)
  | ArgumentValidationError (name : string)
  | SchemaViolation (schema : Schema).

(** Modelled from the spec: the tool descriptor of section 3.  The
    argument schema is given by its conformance test; [invoke] is a
    function of the arguments and the data provider, here the tables. *)
Record ToolDescriptor := mkTool {
  tool_name : string;
  argument_schema : sval → bool;
  invoke : sval → Globals → sval
}.

(** Modelled from the spec: the specialist handler of section 3; it
    refers to its tool by the tool's unique name. *)
Record SpecialistHandler := mkHandler {
  handler_name : string;
  intent_description : string;
  tool : string;
  output_schema : Schema
}.

(** Modelled from the spec: the routing decision of section 3. *)
Record RoutingDecision := mkDecision {
  selected_handler : option SpecialistHandler;
  tool_arguments : sval
}.

(** Modelled from the spec: the language-understanding backend of
    section 6, [classify] and [summarize], and the free-form text that
    answers a query no handler claims (section 4.2). *)
Record Backend := mkBackend {
  classify : string → list SpecialistHandler → option string * sval;
  summarize : sval → Schema → sval;
  free_text : string → string
}.

(** Modelled from the spec: what a session is built from: the tool
    registry, the registered handlers, the data provider and the
    backend. *)
Record System := mkSystem {
  registry : list ToolDescriptor;
  handlers : list SpecialistHandler;
  provider : Globals;
  backend : Backend
}.

(** Modelled from the spec: [ToolRegistry.invoke] of section 4.1:
    [UnknownTool] for an unregistered name, [ArgumentValidationError]
    before the function runs when the arguments do not conform. *)
Definition registry_invoke (sys : System) (name : string) (arguments : sval)
  : Failure + sval :=
  match List.find (λ t, bool_decide (tool_name t = name)) (registry sys) with
  | None => inl (UnknownTool name)
  | Some t =>
      if argument_schema t arguments
      then inr (invoke t arguments (provider sys))
      else inl (ArgumentValidationError name)
  end.

(** Modelled from the spec: [IntentRouter.route] of section 4.2: the
    backend classifies; a name that is not the name of a registered
    handler is no selection. *)
Definition route (sys : System) (query : string) : RoutingDecision :=
  let '(name, arguments) := classify (backend sys) query (handlers sys) in
  match name with
  | None => mkDecision None arguments
  | Some n =>
      mkDecision
        (List.find (λ h, bool_decide (handler_name h = n)) (handlers sys))
        arguments
  end.

(** Modelled from the spec: [OutputValidator.validate] of section 4.4:
    [SchemaViolation] when a required field is absent or of the wrong
    shape or a list element violates its schema, otherwise the value
    tagged with the variant of the schema. *)
Definition validate (raw : sval) (schema : Schema) : Failure + StructuredResult :=
  match schema with
  | SkillGapSchema =>
      match as_SkillGap raw with
      | Some x => inr (SkillGapResult x)
      | None => inl (SchemaViolation schema)
      end
  | JobListingsSchema =>
      match as_list as_JobListing raw with
      | Some l => inr (JobListingResults l)
      | None => inl (SchemaViolation schema)
      end
  | CourseRecommendationsSchema =>
      match as_list as_CourseRecommendation raw with
      | Some l => inr (CourseRecommendationResults l)
      | None => inl (SchemaViolation schema)
      end
  end.

(** Modelled from the spec: the states of section 4.5. *)
Inductive State :=
  | Idle
  | Routing (query : string)
  | Invoking (h : SpecialistHandler) (arguments : sval)
  | Validating (h : SpecialistHandler) (raw : sval)
  | Done (result : StructuredResult)
  | Failed (e : Failure).

(** Modelled from the spec: the transitions of section 4.5 out of each
    state but [Idle]; a terminal state stays. *)
Definition step (sys : System) (st : State) : State :=
  match st with
  | Idle => Idle
  | Routing query =>
      let d := route sys query in
      match selected_handler d with
      | Some h => Invoking h (tool_arguments d)
      | None => Done (Unhandled (free_text (backend sys) query))
      end
  | Invoking h arguments =>
      match registry_invoke sys (tool h) arguments with
      | inr raw => Validating h raw
      | inl e => Failed e
      end
  | Validating h raw =>
      match validate (summarize (backend sys) raw (output_schema h)) (output_schema h) with
      | inr result => Done result
      | inl e => Failed e
      end
  | Done result => Done result
  | Failed e => Failed e
  end.

(** Modelled from the spec: a query takes the session from [Idle] to
    [Routing] (section 4.5); the states it then goes through, three
    transitions being enough to reach a terminal one. *)
Definition trace (sys : System) (query : string) : list State :=
  let s1 := Routing query in
  let s2 := step sys s1 in
  let s3 := step sys s2 in
  [Idle; s1; s2; s3; step sys s3].

(** Modelled from the spec: [submit] of section 6, the terminal state
    of the query's run. *)
Definition submit (sys : System) (query : string) : State :=
  step sys (step sys (step sys (Routing query))).

(** Modelled from the spec: [Done] and [Failed] are the terminal states
    of section 4.5. *)
Definition terminal (st : State) : bool :=
  match st with Done _ | Failed _ => true | _ => false end.

End Session.

(** ** A session over the three tools of the source *)

Module Example.
Import Session.

Definition strs (l : list string) : sval := VList (VStr <$> l).

Definition value_sval (v : value) : sval :=
  match v with
  | Str s => VStr s
  | StrList l => strs l
  end.

Definition dict_sval (d : gmap string value) : sval :=
  VDict ((λ kv, (kv.1, value_sval kv.2)) <$> map_to_list d).

Definition job_sval (job : Job) : sval :=
  VDict [("title", VStr (title job)); ("company", VStr (company job));
         ("location", VStr (location job)); ("skills", strs (skills job))].

Definition recommendation_sval (r : Recommendation) : sval :=
  VDict [("skill", VStr (skill r)); ("courses", strs (courses r))].

(** [get_missing_skills(user_skills: List[str], target_job: str)] *)
Definition get_missing_skills_tool : ToolDescriptor := {|
  tool_name := "get_missing_skills";
  argument_schema := λ a,
    bool_decide (is_Some (field "user_skills" a ≫= as_list as_str)
                 ∧ is_Some (field "target_job" a ≫= as_str));
  invoke := λ a g,
    match field "user_skills" a ≫= as_list as_str,
          field "target_job" a ≫= as_str with
    | Some user_skills, Some target_job =>
        dict_sval (returns (get_missing_skills user_skills target_job) g)
    | _, _ => VDict []
    end
|}.

(** [find_jobs(user_skills: List[str], location: Optional[str] = None)] *)
Definition find_jobs_tool : ToolDescriptor := {|
  tool_name := "find_jobs";
  argument_schema := λ a,
    bool_decide (is_Some (field "user_skills" a ≫= as_list as_str)
                 ∧ (is_Some (field "location" a) →
                    is_Some (field "location" a ≫= as_str)));
  invoke := λ a g,
    match field "user_skills" a ≫= as_list as_str with
    | Some user_skills =>
        VList (job_sval <$>
                 returns (find_jobs user_skills (field "location" a ≫= as_str)) g)
    | None => VList []
    end
|}.

(** [recommend_courses(missing_skills: List[str])] *)
Definition recommend_courses_tool : ToolDescriptor := {|
  tool_name := "recommend_courses";
  argument_schema := λ a,
    bool_decide (is_Some (field "missing_skills" a ≫= as_list as_str));
  invoke := λ a g,
    match field "missing_skills" a ≫= as_list as_str with
    | Some missing_skills =>
        VList (recommendation_sval <$> returns (recommend_courses missing_skills) g)
    | None => VList []
    end
|}.

(** The three specialist agents of the source, by name, handoff
    description, tool and output type. *)
Definition skill_gap_agent : SpecialistHandler :=
  mkHandler "Skill Gap Specialist"
            "Identifies skill gaps for a given career goal."
            "get_missing_skills" SkillGapSchema.

Definition job_finder_agent : SpecialistHandler :=
  mkHandler "Job Finder Specialist"
            "Suggests job listings based on skills and location."
            "find_jobs" JobListingsSchema.

Definition course_recommender_agent : SpecialistHandler :=
  mkHandler "Course Recommender Specialist"
            "Finds learning resources for missing skills."
            "recommend_courses" CourseRecommendationsSchema.

(** A backend that answers every query with the same classification and
    passes tool results through unchanged. *)
Definition fixed_backend (name : option string) (arguments : sval) : Backend := {|
  classify := λ _ _, (name, arguments);
  summarize := λ raw _, raw;
  free_text := λ query, "You asked: " +:+ query
|}.

Definition career_mate (b : Backend) : System := {|
  registry := [get_missing_skills_tool; find_jobs_tool; recommend_courses_tool];
  handlers := [skill_gap_agent; job_finder_agent; course_recommender_agent];
  provider := module_globals;
  backend := b
|}.

End Example.

(** * Properties *)

Example lower_ex : lower "San Francisco (CA)" = "san francisco (ca)".
Proof. reflexivity. Qed.

Example str_in_ex :
  str_in (lower "FRAN") (lower "San Francisco") = true
  ∧ str_in (lower "york") (lower "Remote") = false.
Proof. split; reflexivity. Qed.

Example join_ex : join ", " ["SQL"; "Pandas"] = "SQL, Pandas" ∧ join ", " [] = "".
Proof. split; reflexivity. Qed.

Example get_missing_skills_ex :
  returns (get_missing_skills ["Python"; "Excel"] "Data Scientist") module_globals
    !! "missing_skills"
  = Some (StrList ["SQL"; "Statistics"; "Machine Learning"; "Pandas"]).
Proof. vm_compute. reflexivity. Qed.

Example find_jobs_ex :
  title <$> returns (find_jobs ["Python"; "SQL"; "Excel"] (Some "FRAN")) module_globals
  = ["Data Analyst"].
Proof. vm_compute. reflexivity. Qed.

Example recommend_courses_ex :
  skill <$> returns (recommend_courses ["React"; "Excel"; "Pandas"]) module_globals
  = ["React"; "Pandas"].
Proof. vm_compute. reflexivity. Qed.

(** ** Strings: what the substring test decides *)

Section Strings.

Lemma startswith_spec a b :
  startswith a b = true ↔ ∃ q, b = a +:+ q.
Proof.
  revert b. induction a as [|x a IH]; intros b; simpl.
  - split; [intros _; by exists b | done].
  - destruct b as [|y b]; simpl.
    + split; [done | by intros [q ?]].
    + rewrite andb_true_iff, bool_decide_eq_true, IH. split.
      * intros [-> [q ->]]. by exists q.
      * intros [q Hq]. injection Hq as -> ->. eauto.
Qed.

Lemma str_in_spec a b :
  str_in a b = true ↔ ∃ p q, b = p +:+ a +:+ q.
Proof.
  induction b as [|y b IH]; simpl; rewrite orb_true_iff, startswith_spec.
  - split.
    + intros [[q Hq] | ?]; [|done]. by exists "", q.
    + intros [p [q Hq]]. left. destruct p; [by exists q | done].
  - rewrite IH. split.
    + intros [[q Hq] | [p [q Hq]]]; [by exists "", q |].
      exists (String y p), q. simpl. by rewrite Hq.
    + intros [p [q Hq]]. destruct p as [|z p]; [left; by exists q |].
      right. simpl in Hq. injection Hq as -> ->. eauto.
Qed.

Lemma str_in_empty b : str_in "" b = true.
Proof. by destruct b. Qed.

Lemma truthy_false s : truthy s = false ↔ s = "".
Proof. by destruct s. Qed.

End Strings.

(** ** Loops that only read *)

Section Loops.
Context {A S : Type}.

(** A loop whose body computes its next accumulator from the globals
    and leaves them alone is a left fold, and leaves them alone. *)
Lemma for_in_foldl (l : list A) (body : A → S → Py S)
    (f : Globals → S → A → S) acc g :
  (∀ x a, body x a g = (f g a x, g)) →
  for_in l body acc g = (foldl (f g) acc l, g).
Proof.
  intros Hbody. revert acc.
  induction l as [|x l IH]; intros acc; [done|].
  simpl. unfold mbind, Py_bind. by rewrite Hbody, IH.
Qed.

(** Appending the elements that pass a test, one by one, filters. *)
Lemma foldl_append_filter (p : A → bool) (l acc : list A) :
  foldl (λ acc x, if p x then acc ++ [x] else acc) acc l
  = acc ++ filter (λ x, p x = true) l.
Proof.
  revert acc. induction l as [|x l IH]; intros acc; simpl.
  - by rewrite app_nil_r.
  - rewrite IH. destruct (p x) eqn:Hp.
    + rewrite filter_cons_True by done. by rewrite <- app_assoc.
    + rewrite filter_cons_False; [done|]. by rewrite Hp.
Qed.

(** Appending the results that exist, one by one, is [omap]. *)
Lemma foldl_append_omap {B} (f : A → option B) (l : list A) (acc : list B) :
  foldl (λ acc x, match f x with Some y => acc ++ [y] | None => acc end) acc l
  = acc ++ omap f l.
Proof.
  revert acc. induction l as [|x l IH]; intros acc; simpl.
  - by rewrite app_nil_r.
  - rewrite IH. destruct (f x); [|done]. by rewrite <- app_assoc.
Qed.

End Loops.

(** ** The tools as functions of the tables *)

Section Tools.
Variable g : Globals.

Lemma get_missing_skills_run user_skills target_job :
  get_missing_skills user_skills target_job g
  = (match JOB_SKILLS g !! lower target_job with
     | Some (r :: required) =>
         let missing := filter (λ skill, skill ∉ user_skills) (r :: required) in
         <["target_job" := Str target_job]>
         (<["missing_skills" := StrList missing]>
         (<["explanation" :=
             Str ("To become a " +:+ target_job +:+ ", you need to learn: "
                  +:+ join ", " missing)]> ∅))
     | _ => {[ "error" := Str ("No data for job: " +:+ target_job) ]}
     end, g).
Proof.
  unfold get_missing_skills, global, mbind, Py_bind, mret, Py_ret.
  by destruct (JOB_SKILLS g !! lower target_job) as [[|r required]|].
Qed.

Lemma find_jobs_run user_skills location_ :
  find_jobs user_skills location_ g
  = (filter (λ job, job_matches user_skills location_ job = true) (JOB_LISTINGS g), g).
Proof.
  unfold find_jobs, global, mbind at 1, Py_bind at 1.
  rewrite (for_in_foldl _ _
    (λ _ matches job, if job_matches user_skills location_ job
                      then matches ++ [job] else matches)).
  - by rewrite (foldl_append_filter (job_matches user_skills location_)).
  - intros job matches. unfold job_matches, mret, Py_ret.
    destruct (forallb _ _); [|done].
    destruct location_ as [loc|]; [|done]. simpl.
    by destruct (truthy loc && negb _).
Qed.

Lemma recommend_courses_run missing_skills :
  recommend_courses missing_skills g
  = (omap (catalog_entry g) missing_skills, g).
Proof.
  unfold recommend_courses.
  rewrite (for_in_foldl _ _
    (λ g recommendations skill,
       match catalog_entry g skill with
       | Some r => recommendations ++ [r]
       | None => recommendations
       end)).
  - by rewrite foldl_append_omap.
  - intros skill recs.
    unfold catalog_entry, global, mbind, Py_bind, mret, Py_ret.
    by destruct (COURSES g !! skill) as [[|c cs]|].
Qed.

End Tools.

(** ** The tables of the module *)

#[local] Arguments module_globals : simpl never.

Lemma JOB_SKILLS_nonempty k required :
  JOB_SKILLS module_globals !! k = Some required → required ≠ [].
Proof.
  revert k required. apply map_Forall_lookup. simpl.
  repeat (apply map_Forall_insert_2; [done|]). apply map_Forall_empty.
Qed.

Lemma COURSES_nonempty k courses :
  COURSES module_globals !! k = Some courses → courses ≠ [].
Proof.
  revert k courses. apply map_Forall_lookup. simpl.
  repeat (apply map_Forall_insert_2; [done|]). apply map_Forall_empty.
Qed.

(** ** Skill gap *)

Lemma filter_notin_nil (required user_skills : list string) :
  filter (λ s, s ∉ user_skills) required = [] ↔ required ⊆ user_skills.
Proof.
  split.
  - intros H s Hs. destruct (decide (s ∈ user_skills)) as [|Hn]; [done|].
    assert (s ∈ filter (λ s, s ∉ user_skills) required) as Hin
      by by apply list_elem_of_filter.
    rewrite H in Hin. by apply elem_of_nil in Hin.
  - intros H. destruct (filter _ required) as [|s l] eqn:Hf; [done|].
    assert (s ∈ filter (λ s, s ∉ user_skills) required) as Hin
      by (rewrite Hf; left).
    apply list_elem_of_filter in Hin as [Hn Hs]. by destruct Hn; apply H.
Qed.

(** For a job with a non-empty entry in the table the tool answers with
    the three fields, whatever the table. *)
Lemma get_missing_skills_known g user_skills target_job required :
  JOB_SKILLS g !! lower target_job = Some required →
  required ≠ [] →
  returns (get_missing_skills user_skills target_job) g !! "missing_skills"
  = Some (StrList (filter (λ s, s ∉ user_skills) required)).
Proof.
  intros Hjob Hne. unfold returns. rewrite get_missing_skills_run, Hjob.
  destruct required as [|r required]; [done|]. by simplify_map_eq.
Qed.

(** C1. For a target job that has an entry in [JOB_SKILLS] (looked up by
    its lower-cased title) and any caller skills, the [missing_skills]
    field of the answer of [get_missing_skills] is the required-skill
    list with the skills the caller has filtered out: it is a
    subsequence of the required list in the same order, it holds exactly
    the required skills the caller lacks, and it is empty exactly when
    every required skill is among the caller's. *)
Theorem get_missing_skills_ordered_difference
    (user_skills : list string) (target_job : string) (required : list string) :
  JOB_SKILLS module_globals !! lower target_job = Some required →
  ∃ missing,
    returns (get_missing_skills user_skills target_job) module_globals
      !! "missing_skills" = Some (StrList missing)
    ∧ missing = filter (λ s, s ∉ user_skills) required
    ∧ missing `sublist_of` required
    ∧ (∀ s, s ∈ missing ↔ s ∈ required ∧ s ∉ user_skills)
    ∧ (missing = [] ↔ required ⊆ user_skills).
Proof.
  intros Hjob. eexists. split; [|split; [reflexivity|]].
  - apply get_missing_skills_known; [done|]. by eapply JOB_SKILLS_nonempty.
  - split; [apply sublist_filter|]. split; [|apply filter_notin_nil].
    intros s. rewrite list_elem_of_filter. tauto.
Qed.

Lemma get_missing_skills_ordered_difference_witness :
  ∃ missing,
    returns (get_missing_skills ["Python"; "Excel"] "Data Scientist") module_globals
      !! "missing_skills" = Some (StrList missing)
    ∧ missing = filter (λ s, s ∉ ["Python"; "Excel"])
                       ["Python"; "SQL"; "Statistics"; "Machine Learning"; "Pandas"]
    ∧ missing `sublist_of` ["Python"; "SQL"; "Statistics"; "Machine Learning"; "Pandas"]
    ∧ (∀ s, s ∈ missing ↔
            s ∈ ["Python"; "SQL"; "Statistics"; "Machine Learning"; "Pandas"]
            ∧ s ∉ ["Python"; "Excel"])
    ∧ (missing = [] ↔
       ["Python"; "SQL"; "Statistics"; "Machine Learning"; "Pandas"] ⊆ ["Python"; "Excel"]).
Proof.
  apply (get_missing_skills_ordered_difference ["Python"; "Excel"] "Data Scientist").
  vm_compute. reflexivity.
Defined.

(** C9. The job title is lower-cased before the lookup, so two titles
    with the same lower-casing get the same [missing_skills] (and an
    error for one is an error for the other); the skills themselves are
    compared exactly: a skill is in [missing_skills] exactly when the
    job requires it and the caller's list does not hold it letter for
    letter, so a skill the caller lists exactly is removed, and a
    spelling [s'] in the caller's list that differs from a required
    skill [s], be it in case only, does not remove [s]. *)
Theorem get_missing_skills_case
    (g : Globals) (user_skills : list string) (job1 job2 : string) :
  lower job1 = lower job2 →
  let r1 := returns (get_missing_skills user_skills job1) g in
  let r2 := returns (get_missing_skills user_skills job2) g in
  r1 !! "missing_skills" = r2 !! "missing_skills"
  ∧ (is_Some (r1 !! "error") ↔ is_Some (r2 !! "error"))
  ∧ (∀ required s,
       JOB_SKILLS g !! lower job1 = Some required → s ∈ required →
       ∃ missing,
         r1 !! "missing_skills" = Some (StrList missing)
         ∧ (∀ t, t ∈ missing ↔ t ∈ required ∧ t ∉ user_skills))
  ∧ (∀ required s s',
       JOB_SKILLS g !! lower job1 = Some required → s ∈ required →
       s' ≠ s → lower s' = lower s →
       ∃ missing',
         returns (get_missing_skills (s' :: user_skills) job1) g
           !! "missing_skills" = Some (StrList missing')
         ∧ (s ∈ missing' ↔ s ∉ user_skills)).
Proof.
  intros Hcase r1 r2. subst r1 r2. unfold returns.
  assert (∀ skills_, (get_missing_skills skills_ job1 g).1 !! "missing_skills"
            = match JOB_SKILLS g !! lower job1 with
              | Some (r :: required) =>
                  Some (StrList (filter (λ t, t ∉ skills_) (r :: required)))
              | _ => None
              end) as Hrun.
  { intros skills_. rewrite get_missing_skills_run.
    destruct (JOB_SKILLS g !! lower job1) as [[|r required]|]; by simplify_map_eq. }
  rewrite !Hrun. rewrite !get_missing_skills_run, <- Hcase. simpl.
  destruct (JOB_SKILLS g !! lower job1) as [[|r required]|] eqn:Hjob.
  all: (split; [by simplify_map_eq|]); (split; [by simplify_map_eq|]).
  all: split; [intros required' s [= <-] Hs | intros required' s s' [= <-] Hs Hne Hl].
  - by apply elem_of_nil in Hs.
  - by apply elem_of_nil in Hs.
  - eexists. split; [done|]. intros t. rewrite list_elem_of_filter. tauto.
  - eexists. split; [done|].
    rewrite list_elem_of_filter, not_elem_of_cons. split; [tauto|].
    intros Hn. split; [|done]. split; [congruence | done].
Qed.

Lemma get_missing_skills_case_witness :
  lower "Data Scientist" = lower "data scientist"
  ∧ returns (get_missing_skills ["SQL"] "Data Scientist") module_globals
      !! "missing_skills"
    = returns (get_missing_skills ["SQL"] "data scientist") module_globals
      !! "missing_skills"
  ∧ (∃ missing,
       returns (get_missing_skills ["SQL"] "Data Scientist") module_globals
         !! "missing_skills" = Some (StrList missing)
       ∧ (∀ t, t ∈ missing ↔
               t ∈ ["Python"; "SQL"; "Statistics"; "Machine Learning"; "Pandas"]
               ∧ t ∉ ["SQL"]))
  ∧ (∃ missing',
       returns (get_missing_skills ("python" :: ["SQL"]) "Data Scientist")
               module_globals !! "missing_skills" = Some (StrList missing')
       ∧ ("Python" ∈ missing' ↔ "Python" ∉ ["SQL"])).
Proof.
  split; [reflexivity|].
  destruct (get_missing_skills_case module_globals ["SQL"]
              "Data Scientist" "data scientist" eq_refl)
    as (Hsame & _ & Hexact & Hvariant).
  split; [exact Hsame|]. split.
  - apply (Hexact ["Python"; "SQL"; "Statistics"; "Machine Learning"; "Pandas"]
                  "Python").
    + vm_compute. reflexivity.
    + left.
  - apply (Hvariant ["Python"; "SQL"; "Statistics"; "Machine Learning"; "Pandas"]
                    "Python" "python").
    + vm_compute. reflexivity.
    + left.
    + discriminate.
    + reflexivity.
Defined.

(** C10. When the lower-cased job title has no entry in [JOB_SKILLS],
    [get_missing_skills] answers with a dict whose only key is [error]:
    none of [target_job], [missing_skills], [explanation] is present,
    and the answer is the same for every list of caller skills. *)
Theorem get_missing_skills_unknown
    (g : Globals) (user_skills : list string) (target_job : string) :
  JOB_SKILLS g !! lower target_job = None →
  let result := returns (get_missing_skills user_skills target_job) g in
  result = {[ "error" := Str ("No data for job: " +:+ target_job) ]}
  ∧ dom result = {[ "error" ]}
  ∧ result !! "target_job" = None
  ∧ result !! "missing_skills" = None
  ∧ result !! "explanation" = None
  ∧ ∀ other_skills,
      returns (get_missing_skills other_skills target_job) g = result.
Proof.
  intros Hjob result. subst result. unfold returns.
  rewrite get_missing_skills_run, Hjob. simpl.
  split; [done|]. split; [apply dom_singleton_L|].
  repeat (split; [by simplify_map_eq|]).
  intros other. by rewrite get_missing_skills_run, Hjob.
Qed.

Lemma get_missing_skills_unknown_witness :
  let result := returns (get_missing_skills ["Python"] "Astronaut") module_globals in
  result = {[ "error" := Str "No data for job: Astronaut" ]}
  ∧ dom result = {[ "error" ]}
  ∧ result !! "target_job" = None
  ∧ result !! "missing_skills" = None
  ∧ result !! "explanation" = None
  ∧ ∀ other_skills,
      returns (get_missing_skills other_skills "Astronaut") module_globals = result.
Proof.
  apply (get_missing_skills_unknown module_globals ["Python"] "Astronaut").
  vm_compute. reflexivity.
Defined.

(** C8. Whatever the tables hold and whatever the arguments, each of the
    three tools leaves [JOB_SKILLS], [JOB_LISTINGS] and [COURSES] as it
    found them. *)
Theorem tools_leave_globals
    (g : Globals) (user_skills : list string) (target_job : string)
    (location_ : option string) (missing_skills : list string) :
  leaves (get_missing_skills user_skills target_job) g = g
  ∧ leaves (find_jobs user_skills location_) g = g
  ∧ leaves (recommend_courses missing_skills) g = g.
Proof.
  unfold leaves.
  by rewrite get_missing_skills_run, find_jobs_run, recommend_courses_run.
Qed.

(** ** Job matching *)

Lemma location_test loc where_ :
  negb (truthy loc && negb (str_in (lower loc) where_)) = str_in (lower loc) where_.
Proof.
  destruct loc as [|c loc]; simpl truthy.
  - simpl lower. by rewrite str_in_empty.
  - by rewrite andb_true_l, negb_involutive.
Qed.

Lemma skills_test user_skills (required : list string) :
  forallb (λ skill, bool_decide (skill ∈ user_skills)) required = true
  ↔ required ⊆ user_skills.
Proof.
  rewrite forallb_forall. split.
  - intros H s Hs. apply list_elem_of_In, H in Hs.
    by apply bool_decide_eq_true in Hs.
  - intros H s Hs. apply bool_decide_eq_true, H. by apply list_elem_of_In.
Qed.

Lemma job_matches_spec user_skills location_ job :
  job_matches user_skills location_ job = true ↔
  skills job ⊆ user_skills
  ∧ (∀ loc, location_ = Some loc →
       ∃ p q, lower (location job) = p +:+ lower loc +:+ q).
Proof.
  unfold job_matches. rewrite andb_true_iff, skills_test.
  destruct location_ as [loc|].
  - rewrite location_test, str_in_spec. split.
    + intros [? ?]. split; [done|]. by intros ? [= <-].
    + intros [? H]. split; [done|]. by apply H.
  - split; [|by intros [? _]]. intros [? _]. split; [done|]. by intros ? [=].
Qed.

(** C2. For any caller skills and optional location, [find_jobs] returns
    a listing of [JOB_LISTINGS] exactly when every skill the listing
    requires is among the caller's and, if a location is given, its
    lower-casing occurs inside the lower-cased location of the listing. *)
Theorem find_jobs_iff
    (g : Globals) (user_skills : list string) (location_ : option string) (job : Job) :
  job ∈ returns (find_jobs user_skills location_) g ↔
  job ∈ JOB_LISTINGS g
  ∧ skills job ⊆ user_skills
  ∧ (∀ loc, location_ = Some loc →
       ∃ p q, lower (location job) = p +:+ lower loc +:+ q).
Proof.
  unfold returns. rewrite find_jobs_run. simpl.
  rewrite list_elem_of_filter, job_matches_spec. tauto.
Qed.

(** C4. A listing [find_jobs] returns for some caller skills and optional
    location is still returned when one more skill is appended to the
    caller's skills. *)
Theorem find_jobs_monotone
    (g : Globals) (user_skills : list string) (location_ : option string)
    (extra : string) (job : Job) :
  job ∈ returns (find_jobs user_skills location_) g →
  job ∈ returns (find_jobs (user_skills ++ [extra]) location_) g.
Proof.
  unfold returns. rewrite !find_jobs_run. simpl.
  rewrite !list_elem_of_filter, !job_matches_spec.
  intros [[Hskills Hloc] Hin]. split; [|done]. split; [|done].
  intros s Hs. apply elem_of_app. left. by apply Hskills.
Qed.

Lemma find_jobs_monotone_witness :
  mkJob "Junior Data Scientist" "TechCorp" "Remote" ["Python"; "SQL"]
    ∈ returns (find_jobs (["Python"; "SQL"] ++ ["Excel"]) (Some "remote")) module_globals.
Proof.
  apply (find_jobs_monotone module_globals ["Python"; "SQL"] (Some "remote") "Excel").
  vm_compute. left.
Defined.

(** ** Course recommendation *)

Lemma catalog_entry_module s :
  catalog_entry module_globals s
  = mkRecommendation s <$> COURSES module_globals !! s.
Proof.
  unfold catalog_entry.
  destruct (COURSES module_globals !! s) as [[|c cs]|] eqn:Hs; try done.
  by apply COURSES_nonempty in Hs.
Qed.

(** C3. For any requested skills, the skills of the entries that
    [recommend_courses] returns are the requested skills that have an
    entry in [COURSES], in the order (and as many times as) they were
    requested; each entry carries the courses the catalog lists for its
    skill; a requested skill without a catalog entry only goes missing
    from the output. *)
Theorem recommend_courses_spec (missing_skills : list string) :
  let out := returns (recommend_courses missing_skills) module_globals in
  skill <$> out
    = filter (λ s, is_Some (COURSES module_globals !! s)) missing_skills
  ∧ (∀ s, s ∈ skill <$> out ↔
          s ∈ missing_skills ∧ is_Some (COURSES module_globals !! s))
  ∧ (∀ r, r ∈ out → COURSES module_globals !! skill r = Some (courses r)).
Proof.
  intros out. subst out. unfold returns. rewrite recommend_courses_run. simpl.
  assert (skill <$> omap (catalog_entry module_globals) missing_skills
          = filter (λ s, is_Some (COURSES module_globals !! s)) missing_skills) as Heq.
  { induction missing_skills as [|s l IH]; [done|].
    cbn [omap list_omap]. rewrite catalog_entry_module.
    destruct (COURSES module_globals !! s) as [cs|] eqn:Hs.
    - rewrite filter_cons_True by (by rewrite Hs). cbn. by rewrite <- IH.
    - rewrite filter_cons_False by (rewrite Hs; by intros [? ?]). apply IH. }
  split; [done|]. split.
  - intros s. rewrite Heq, list_elem_of_filter. tauto.
  - intros r Hr. apply list_elem_of_omap in Hr as (s & _ & Hr).
    rewrite catalog_entry_module in Hr.
    destruct (COURSES module_globals !! s) as [cs|] eqn:Hs; [|done].
    by injection Hr as <-.
Qed.

(** ** The result dispatch *)

(** The object a list of course recommendations, or of job listings, is
    when it reaches [main]. *)
Lemma test_course_recommendations_list (l : list Models.CourseRecommendation) :
  test_course_recommendations (OList (OCourseRecommendation <$> l)) = true.
Proof.
  unfold test_course_recommendations, all. simpl.
  apply forallb_forall. intros o Ho.
  apply list_elem_of_In, list_elem_of_fmap in Ho as (x & -> & _). done.
Qed.

Lemma test_job_listings_list (l : list Models.JobListing) :
  test_job_listings (OList (OJobListing <$> l)) = true.
Proof.
  unfold test_job_listings, all. simpl.
  apply forallb_forall. intros o Ho.
  apply list_elem_of_In, list_elem_of_fmap in Ho as (x & -> & _). done.
Qed.

(** Apart from the empty list no output passes two of the three tests. *)
Lemma tests_exclusive (output : object) :
  output ≠ OList [] →
  (test_skill_gap output = true → test_job_listings output = false
                                  ∧ test_course_recommendations output = false)
  ∧ (test_job_listings output = true → test_course_recommendations output = false).
Proof.
  intros Hne. destruct output as [s|x|x|x|[|o l]]; try done.
  split; [done|].
  unfold test_job_listings, test_course_recommendations, all. simpl.
  by destruct o.
Qed.

(** A list of course recommendations that is not empty is reported as
    course recommendations. *)
Lemma main_section_courses (x : Models.CourseRecommendation)
    (l : list Models.CourseRecommendation) :
  main_section (OList (OCourseRecommendation <$> x :: l)) = CourseRecommendations.
Proof.
  unfold main_section.
  pose proof (test_course_recommendations_list (x :: l)) as Hc. by rewrite Hc.
Qed.

(** C6, at the output that breaks it.  The course recommender's tool
    returns the empty list for a skill that has no catalog entry; the
    empty list passes the test for a list of job listings and the test
    for a list of course recommendations alike, and [main], which tries
    the job listings first, reports it as job listings. *)
Theorem main_empty_list_two_variants :
  returns (recommend_courses ["Excel"]) module_globals = []
  ∧ test_job_listings (OList (OCourseRecommendation <$> [])) = true
  ∧ test_course_recommendations (OList (OCourseRecommendation <$> [])) = true
  ∧ main_section (OList (OCourseRecommendation <$> [])) = JobListings.
Proof. vm_compute. done. Qed.

(** ** The session *)

Section SessionProperties.
Import Session.
Variable sys : System.

Lemma find_handler_registered name h :
  List.find (λ h, bool_decide (handler_name h = name)) (handlers sys) = Some h →
  h ∈ handlers sys ∧ handler_name h = name.
Proof.
  intros H. apply find_some in H as [Hin Hname].
  split; [by apply list_elem_of_In | by apply bool_decide_eq_true in Hname].
Qed.

Lemma find_handler_unregistered name :
  name ∉ handler_name <$> handlers sys →
  List.find (λ h, bool_decide (handler_name h = name)) (handlers sys) = None.
Proof.
  intros Hname.
  destruct (List.find _ (handlers sys)) as [h|] eqn:Hfind; [|done].
  apply find_handler_registered in Hfind as [Hin <-].
  destruct Hname. by apply list_elem_of_fmap_2.
Qed.

(** The router only ever selects a registered handler. *)
Lemma route_registered query h :
  selected_handler (route sys query) = Some h → h ∈ handlers sys.
Proof.
  unfold route.
  destruct (classify (backend sys) query (handlers sys)) as [[name|] arguments];
    simpl; [|done].
  intros H. by apply find_handler_registered in H as [? _].
Qed.

(** The validator never tags a value [Unhandled]. *)
Lemma validate_tagged raw schema result :
  validate raw schema = inr result → ∀ text, result ≠ Unhandled text.
Proof.
  unfold validate. intros H text ->.
  destruct schema;
    [destruct (as_SkillGap raw)
    |destruct (as_list as_JobListing raw)
    |destruct (as_list as_CourseRecommendation raw)]; done.
Qed.

(** What a session ends in, by what the router decided. *)
Lemma submit_unselected query :
  selected_handler (route sys query) = None →
  submit sys query = Done (Unhandled (free_text (backend sys) query)).
Proof. intros H. unfold submit. simpl. by rewrite H. Qed.

Lemma submit_selected query h :
  selected_handler (route sys query) = Some h →
  submit sys query =
    match registry_invoke sys (tool h) (tool_arguments (route sys query)) with
    | inl e => Failed e
    | inr raw =>
        match validate (summarize (backend sys) raw (output_schema h))
                       (output_schema h) with
        | inl e => Failed e
        | inr result => Done result
        end
    end.
Proof.
  intros H. unfold submit. simpl. rewrite H. simpl.
  destruct (registry_invoke _ _ _) as [e|raw]; [done|]. simpl.
  by destruct (validate _ _).
Qed.

(** Every query runs to a terminal state. *)
Lemma submit_terminal query : terminal (submit sys query) = true.
Proof.
  destruct (selected_handler (route sys query)) as [h|] eqn:Hsel.
  - rewrite (submit_selected _ h Hsel).
    destruct (registry_invoke _ _ _) as [e|raw]; [done|].
    by destruct (validate _ _).
  - by rewrite submit_unselected.
Qed.

(** [Unhandled] is the answer exactly when no handler was selected. *)
Lemma submit_unhandled_iff query :
  (∃ text, submit sys query = Done (Unhandled text))
  ↔ selected_handler (route sys query) = None.
Proof.
  split.
  - intros [text Hdone].
    destruct (selected_handler (route sys query)) as [h|] eqn:Hsel; [|done].
    rewrite (submit_selected _ h Hsel) in Hdone.
    destruct (registry_invoke _ _ _) as [e|raw]; [done|].
    destruct (validate _ _) as [e|result] eqn:Hval; [done|].
    injection Hdone as ->. by eapply validate_tagged in Hval.
  - intros Hsel. eexists. by apply submit_unselected.
Qed.

(** A failure is the answer only when a handler was selected. *)
Lemma submit_failed_selected query e :
  submit sys query = Failed e → is_Some (selected_handler (route sys query)).
Proof.
  intros Hfail.
  destruct (selected_handler (route sys query)) as [h|] eqn:Hsel; [done|].
  by rewrite submit_unselected in Hfail.
Qed.

(** No transition enters [Routing]; only routing enters [Invoking]. *)
Lemma step_not_routing st query : step sys st ≠ Routing query.
Proof.
  destruct st as [|q|h a|h raw|r|e]; simpl; try done.
  - by destruct (selected_handler (route sys q)).
  - by destruct (registry_invoke sys (tool h) a).
  - by destruct (validate _ _).
Qed.

Lemma step_invoking st h arguments :
  step sys st = Invoking h arguments →
  ∃ query, st = Routing query ∧ selected_handler (route sys query) = Some h.
Proof.
  destruct st as [|q|h' a|h' raw|r|e]; simpl; try done.
  - destruct (selected_handler (route sys q)) as [h'|] eqn:Hsel; [|done].
    intros [= -> _]. eauto.
  - by destruct (registry_invoke sys (tool h') a).
  - by destruct (validate _ _).
Qed.

(** A handler the session invokes is a registered one. *)
Lemma trace_invokes_registered query st h arguments :
  st ∈ trace sys query → st = Invoking h arguments → h ∈ handlers sys.
Proof.
  unfold trace. intros Hst ->.
  rewrite !elem_of_cons, elem_of_nil in Hst.
  destruct Hst as [?|[?|[H|[H|[H|[]]]]]]; try done;
    symmetry in H; apply step_invoking in H as (q & H & Hsel).
  - by apply route_registered in Hsel.
  - by apply step_not_routing in H.
  - by apply step_not_routing in H.
Qed.

End SessionProperties.

Import Session.

Example submit_skill_gap :
  submit (Example.career_mate
            (Example.fixed_backend (Some "Skill Gap Specialist")
               (VDict [("user_skills", Example.strs ["Python"]);
                       ("target_job", VStr "data scientist")])))
         "I want to become a data scientist"
  = Done (SkillGapResult
            (Models.mkSkillGap "data scientist"
               ["SQL"; "Statistics"; "Machine Learning"; "Pandas"]
               "To become a data scientist, you need to learn: SQL, Statistics, Machine Learning, Pandas")).
Proof. vm_compute. reflexivity. Qed.

Example submit_schema_violation :
  submit (Example.career_mate
            (Example.fixed_backend (Some "Job Finder Specialist")
               (VDict [("user_skills", Example.strs ["Python"; "SQL"])])))
         "I know Python and SQL. Can you find me a job?"
  = Failed (SchemaViolation JobListingsSchema).
Proof. vm_compute. reflexivity. Qed.

(** C5. When the backend's classification of a query names a handler
    that is not the name of any registered handler, the router selects
    nothing, the session ends in [Done] with the [Unhandled] variant
    carrying the free-form answer, it does not end in [Failed], and it
    goes through no [Invoking] state, so no handler is invoked at all. *)
Theorem unregistered_handler_unhandled
    (sys : System) (query name : string) (arguments : sval) :
  classify (backend sys) query (handlers sys) = (Some name, arguments) →
  name ∉ handler_name <$> handlers sys →
  selected_handler (route sys query) = None
  ∧ submit sys query = Done (Unhandled (free_text (backend sys) query))
  ∧ (∀ e, submit sys query ≠ Failed e)
  ∧ (∀ st h a, st ∈ trace sys query → st ≠ Invoking h a).
Proof.
  intros Hclass Hname.
  assert (selected_handler (route sys query) = None) as Hsel.
  { unfold route. rewrite Hclass. simpl. by apply find_handler_unregistered. }
  split; [done|]. rewrite (submit_unselected _ _ Hsel).
  split; [done|]. split; [done|].
  intros st h a Hst ->. unfold trace in Hst. simpl in Hst.
  rewrite Hsel in Hst. simpl in Hst.
  rewrite !elem_of_cons, elem_of_nil in Hst.
  destruct Hst as [?|[?|[?|[?|[?|[]]]]]]; done.
Qed.

Lemma unregistered_handler_unhandled_witness :
  let sys := Example.career_mate
               (Example.fixed_backend (Some "Salary Negotiation Specialist") (VDict [])) in
  let query := "How do I negotiate my salary?" in
  selected_handler (route sys query) = None
  ∧ submit sys query = Done (Unhandled "You asked: How do I negotiate my salary?")
  ∧ (∀ e, submit sys query ≠ Failed e)
  ∧ (∀ st h a, st ∈ trace sys query → st ≠ Invoking h a).
Proof.
  apply (unregistered_handler_unhandled
           (Example.career_mate
              (Example.fixed_backend (Some "Salary Negotiation Specialist") (VDict [])))
           "How do I negotiate my salary?"
           "Salary Negotiation Specialist" (VDict [])).
  - reflexivity.
  - apply (bool_decide_unpack _). vm_compute. exact I.
Defined.

(** C7. When the router has selected a handler and its processing fails,
    in the registry ([UnknownTool], [ArgumentValidationError]) or in the
    validator ([SchemaViolation]), the session ends in [Failed] with
    that error and not in [Done] with [Unhandled]; and whenever a
    session does end in [Done] with [Unhandled], the router had selected
    no handler. *)
Theorem engaged_failure_typed
    (sys : System) (query : string) (h : SpecialistHandler) (e : Failure) :
  selected_handler (route sys query) = Some h →
  (registry_invoke sys (tool h) (tool_arguments (route sys query)) = inl e
   ∨ ∃ raw,
       registry_invoke sys (tool h) (tool_arguments (route sys query)) = inr raw
       ∧ validate (summarize (backend sys) raw (output_schema h)) (output_schema h)
         = inl e) →
  submit sys query = Failed e
  ∧ (∀ text, submit sys query ≠ Done (Unhandled text))
  ∧ (∀ query' text,
       submit sys query' = Done (Unhandled text) →
       selected_handler (route sys query') = None).
Proof.
  intros Hsel Hfail.
  assert (submit sys query = Failed e) as Hsubmit.
  { rewrite (submit_selected _ _ _ Hsel).
    destruct Hfail as [-> | (raw & -> & ->)]; done. }
  rewrite Hsubmit. split; [done|]. split; [done|].
  intros query' text Hdone. apply submit_unhandled_iff. eauto.
Qed.

Lemma engaged_failure_typed_witness :
  let sys := Example.career_mate
               (Example.fixed_backend (Some "Skill Gap Specialist")
                  (VDict [("target_job", VStr "data scientist")])) in
  let query := "I want to become a data scientist" in
  submit sys query = Failed (ArgumentValidationError "get_missing_skills")
  ∧ (∀ text, submit sys query ≠ Done (Unhandled text))
  ∧ (∀ query' text,
       submit sys query' = Done (Unhandled text) →
       selected_handler (route sys query') = None).
Proof.
  apply (engaged_failure_typed
           (Example.career_mate
              (Example.fixed_backend (Some "Skill Gap Specialist")
                 (VDict [("target_job", VStr "data scientist")])))
           "I want to become a data scientist"
           Example.skill_gap_agent
           (ArgumentValidationError "get_missing_skills")).
  - reflexivity.
  - left. vm_compute. reflexivity.
Defined.

(** * Further properties of the tools *)

(** ** Skill gap: the shape of the answer and how calls relate *)

(** X1. The answer of [get_missing_skills] has one of two shapes,
    whatever the tables: the single key [error], exactly when the
    lower-cased title has no entry or an empty one; or exactly the keys
    [target_job], [missing_skills] and [explanation], with [target_job]
    the title as the caller spelled it. *)
Theorem get_missing_skills_shape
    (g : Globals) (user_skills : list string) (target_job : string) :
  let result := returns (get_missing_skills user_skills target_job) g in
  ((JOB_SKILLS g !! lower target_job = None
    ∨ JOB_SKILLS g !! lower target_job = Some [])
   ∧ dom result = {[ "error" ]})
  ∨ ((∃ r required, JOB_SKILLS g !! lower target_job = Some (r :: required))
     ∧ dom result = {[ "target_job"; "missing_skills"; "explanation" ]}
     ∧ result !! "target_job" = Some (Str target_job)).
Proof.
  intros result. subst result. unfold returns. rewrite get_missing_skills_run.
  destruct (JOB_SKILLS g !! lower target_job) as [[|r required]|]; simpl.
  - left. split; [by right | apply dom_singleton_L].
  - right. split; [by eauto|]. split; [|by simplify_map_eq].
    rewrite !dom_insert_L, dom_empty_L. set_solver.
  - left. split; [by left | apply dom_singleton_L].
Qed.

(** X2. A caller who already has every required skill of a known job
    gets no error: [missing_skills] is the empty list and the
    explanation ends after its colon. *)
Theorem get_missing_skills_nothing_missing
    (g : Globals) (user_skills : list string) (target_job : string)
    (required : list string) :
  JOB_SKILLS g !! lower target_job = Some required →
  required ≠ [] →
  required ⊆ user_skills →
  let result := returns (get_missing_skills user_skills target_job) g in
  result !! "missing_skills" = Some (StrList [])
  ∧ result !! "explanation"
    = Some (Str ("To become a " +:+ target_job +:+ ", you need to learn: "))
  ∧ result !! "error" = None.
Proof.
  intros Hjob Hne Hsub result. subst result. unfold returns.
  rewrite get_missing_skills_run, Hjob.
  destruct required as [|r required]; [done|]. simpl fst.
  apply filter_notin_nil in Hsub. rewrite Hsub. by simplify_map_eq.
Qed.

Lemma get_missing_skills_nothing_missing_witness :
  let result :=
    returns (get_missing_skills ["React"; "CSS"; "HTML"; "Node.js"; "JavaScript"]
                                "Web Developer") module_globals in
  result !! "missing_skills" = Some (StrList [])
  ∧ result !! "explanation"
    = Some (Str "To become a Web Developer, you need to learn: ")
  ∧ result !! "error" = None.
Proof.
  apply (get_missing_skills_nothing_missing module_globals
           ["React"; "CSS"; "HTML"; "Node.js"; "JavaScript"] "Web Developer"
           ["HTML"; "CSS"; "JavaScript"; "React"; "Node.js"]).
  - vm_compute. reflexivity.
  - discriminate.
  - intros s Hs. apply (bool_decide_unpack _).
    repeat (apply elem_of_cons in Hs as [->|Hs]; [vm_compute; exact I|]).
    by apply elem_of_nil in Hs.
Defined.

(** The list a successful answer carries. *)
Lemma get_missing_skills_missing_inv g user_skills target_job missing :
  returns (get_missing_skills user_skills target_job) g !! "missing_skills"
    = Some (StrList missing) →
  ∃ required,
    JOB_SKILLS g !! lower target_job = Some required ∧ required ≠ []
    ∧ missing = filter (λ s, s ∉ user_skills) required.
Proof.
  unfold returns. rewrite get_missing_skills_run.
  destruct (JOB_SKILLS g !! lower target_job) as [[|r required]|];
    simpl; simplify_map_eq; try done.
  intros [= <-]. by eexists.
Qed.

(** X3. Learning closes the gap: with the missing skills of one answer
    appended to the caller's skills, the next answer for the same job
    has nothing missing. *)
Theorem get_missing_skills_closes_gap
    (g : Globals) (user_skills : list string) (target_job : string)
    (missing : list string) :
  returns (get_missing_skills user_skills target_job) g !! "missing_skills"
    = Some (StrList missing) →
  returns (get_missing_skills (user_skills ++ missing) target_job) g
    !! "missing_skills" = Some (StrList []).
Proof.
  intros H. apply get_missing_skills_missing_inv in H as (required & Hjob & Hne & ->).
  rewrite (get_missing_skills_known _ _ _ required Hjob Hne). do 2 f_equal.
  apply filter_notin_nil. intros s Hs. apply elem_of_app.
  destruct (decide (s ∈ user_skills)); [by left|].
  right. by apply list_elem_of_filter.
Qed.

Lemma get_missing_skills_closes_gap_witness :
  returns (get_missing_skills
             (["Excel"; "Python"] ++ ["SQL"; "Power BI"; "Statistics"])
             "data analyst") module_globals
    !! "missing_skills" = Some (StrList []).
Proof.
  apply (get_missing_skills_closes_gap module_globals ["Excel"; "Python"]
           "data analyst" ["SQL"; "Power BI"; "Statistics"]).
  vm_compute. reflexivity.
Defined.

(** X4. More skills, less missing: when every skill of one caller is
    also a skill of another, what the second misses for a job is a
    subsequence of what the first misses. *)
Theorem get_missing_skills_antitone
    (g : Globals) (user_skills more_skills : list string) (target_job : string)
    (missing : list string) :
  user_skills ⊆ more_skills →
  returns (get_missing_skills user_skills target_job) g !! "missing_skills"
    = Some (StrList missing) →
  ∃ missing',
    returns (get_missing_skills more_skills target_job) g !! "missing_skills"
      = Some (StrList missing')
    ∧ missing' `sublist_of` missing.
Proof.
  intros Hsub H.
  apply get_missing_skills_missing_inv in H as (required & Hjob & Hne & ->).
  eexists. split; [by apply get_missing_skills_known|].
  clear Hjob Hne. induction required as [|s required IH]; [done|].
  rewrite !filter_cons.
  destruct (decide (s ∉ more_skills)) as [Hm|Hm].
  - rewrite decide_True by (intros Hs; by apply Hm, Hsub). by apply sublist_skip.
  - destruct (decide (s ∉ user_skills)); [by apply sublist_cons | done].
Qed.

Lemma get_missing_skills_antitone_witness :
  ∃ missing',
    returns (get_missing_skills ["SQL"; "Python"; "Pandas"] "data scientist")
            module_globals !! "missing_skills" = Some (StrList missing')
    ∧ missing' `sublist_of` ["SQL"; "Statistics"; "Machine Learning"; "Pandas"].
Proof.
  apply (get_missing_skills_antitone module_globals
           ["Python"] ["SQL"; "Python"; "Pandas"] "data scientist").
  - intros s Hs. apply list_elem_of_singleton in Hs as ->. right. left.
  - vm_compute. reflexivity.
Defined.

(** X5. Only which skills the caller lists matters, not their order or
    repetition: two skill lists with the same members get the same
    answer, field for field. *)
Theorem get_missing_skills_set
    (g : Globals) (user_skills user_skills' : list string) (target_job : string) :
  (∀ s, s ∈ user_skills ↔ s ∈ user_skills') →
  returns (get_missing_skills user_skills target_job) g
  = returns (get_missing_skills user_skills' target_job) g.
Proof.
  intros Hsame. unfold returns. rewrite !get_missing_skills_run.
  destruct (JOB_SKILLS g !! lower target_job) as [[|r required]|]; try done.
  simpl fst.
  assert (filter (λ s, s ∉ user_skills) (r :: required)
          = filter (λ s, s ∉ user_skills') (r :: required)) as ->; [|done].
  apply list_filter_iff. intros s. by rewrite Hsame.
Qed.

Lemma get_missing_skills_set_witness :
  returns (get_missing_skills ["SQL"; "Python"; "SQL"] "data analyst") module_globals
  = returns (get_missing_skills ["Python"; "SQL"] "data analyst") module_globals.
Proof.
  apply (get_missing_skills_set module_globals
           ["SQL"; "Python"; "SQL"] ["Python"; "SQL"] "data analyst").
  intros s. rewrite !elem_of_cons, elem_of_nil. tauto.
Defined.

(** ** Lower-casing and the substring test, further *)

Lemma lower_char_idemp c : lower_char (lower_char c) = lower_char c.
Proof. destruct c as [[] [] [] [] [] [] [] []]; reflexivity. Qed.

Lemma lower_idemp s : lower (lower s) = lower s.
Proof.
  induction s as [|c s IH]; [done|]. simpl. by rewrite lower_char_idemp, IH.
Qed.

Lemma startswith_refl s : startswith s s = true.
Proof.
  induction s as [|c s IH]; [done|]. simpl. by rewrite bool_decide_true, IH.
Qed.

Lemma str_in_refl s : str_in s s = true.
Proof. destruct s; simpl; [done|]. by rewrite bool_decide_true, startswith_refl. Qed.

Lemma lower_truthy s : truthy (lower s) = truthy s.
Proof. by destruct s. Qed.

(** A weaker test keeps a longer subsequence. *)
Lemma sublist_filter_impl {A} (P Q : A → Prop)
    `{!∀ x, Decision (P x)} `{!∀ x, Decision (Q x)} (l : list A) :
  (∀ x, x ∈ l → P x → Q x) → filter P l `sublist_of` filter Q l.
Proof.
  induction l as [|x l IH]; intros HPQ; [done|].
  assert (filter P l `sublist_of` filter Q l) as Hl.
  { apply IH. intros y Hy. apply HPQ. by right. }
  rewrite !filter_cons. destruct (decide (P x)) as [HP|HP].
  - rewrite decide_True by (apply HPQ; [left | done]). by apply sublist_skip.
  - destruct (decide (Q x)); [by apply sublist_cons | done].
Qed.

(** ** Job matching: order, location, and the caller's skills *)

(** The location test of [find_jobs] looks at the lower-cased query only. *)
Lemma job_matches_lower user_skills loc loc' job :
  lower loc = lower loc' →
  job_matches user_skills (Some loc) job = job_matches user_skills (Some loc') job.
Proof.
  intros Hl. unfold job_matches.
  by rewrite <- (lower_truthy loc), <- (lower_truthy loc'), Hl.
Qed.

(** X6. Whatever the tables, [find_jobs] returns a subsequence of
    [JOB_LISTINGS]: listings come out in table order, none is made up
    and none comes out more often than the table holds it. *)
Theorem find_jobs_sublist
    (g : Globals) (user_skills : list string) (location_ : option string) :
  returns (find_jobs user_skills location_) g `sublist_of` JOB_LISTINGS g.
Proof. unfold returns. rewrite find_jobs_run. simpl. apply sublist_filter. Qed.

(** X7. A location only narrows the result: with a location the result
    is a subsequence of the result without one; and the empty string as
    location narrows nothing. *)
Theorem find_jobs_location_narrows
    (g : Globals) (user_skills : list string) (loc : string) :
  returns (find_jobs user_skills (Some loc)) g
    `sublist_of` returns (find_jobs user_skills None) g
  ∧ returns (find_jobs user_skills (Some "")) g
    = returns (find_jobs user_skills None) g.
Proof.
  unfold returns. rewrite !find_jobs_run. simpl. split.
  - apply sublist_filter_impl. intros job _. unfold job_matches.
    rewrite !andb_true_iff. tauto.
  - apply list_filter_iff. intros job. unfold job_matches. by simpl.
Qed.

(** X8. The location is matched without regard to case: two locations
    with the same lower-casing give the same result. *)
Theorem find_jobs_location_case
    (g : Globals) (user_skills : list string) (loc loc' : string) :
  lower loc = lower loc' →
  returns (find_jobs user_skills (Some loc)) g
  = returns (find_jobs user_skills (Some loc')) g.
Proof.
  intros Hl. unfold returns. rewrite !find_jobs_run. simpl.
  apply list_filter_iff. intros job. by rewrite (job_matches_lower _ loc loc').
Qed.

Lemma find_jobs_location_case_witness :
  returns (find_jobs ["Python"; "SQL"] (Some "REMOTE")) module_globals
  = returns (find_jobs ["Python"; "SQL"] (Some "remote")) module_globals.
Proof.
  apply (find_jobs_location_case module_globals ["Python"; "SQL"] "REMOTE" "remote").
  reflexivity.
Defined.

(** X9. A listing of the table whose skills the caller has is found
    under its own location, in any casing. *)
Theorem find_jobs_own_location
    (g : Globals) (user_skills : list string) (loc : string) (job : Job) :
  job ∈ JOB_LISTINGS g →
  skills job ⊆ user_skills →
  lower loc = lower (location job) →
  job ∈ returns (find_jobs user_skills (Some loc)) g.
Proof.
  intros Hin Hskills Hl. unfold returns. rewrite find_jobs_run. simpl.
  apply list_elem_of_filter. split; [|done].
  unfold job_matches. apply andb_true_iff. split; [by apply skills_test|].
  by rewrite location_test, Hl, str_in_refl.
Qed.

Lemma find_jobs_own_location_witness :
  mkJob "Web Developer" "WebWorld" "New York" ["JavaScript"; "React"]
    ∈ returns (find_jobs ["React"; "JavaScript"] (Some "NEW YORK")) module_globals.
Proof.
  apply (find_jobs_own_location module_globals ["React"; "JavaScript"] "NEW YORK"
           (mkJob "Web Developer" "WebWorld" "New York" ["JavaScript"; "React"])).
  - right. left.
  - intros s Hs. simpl in Hs. rewrite !elem_of_cons, elem_of_nil in Hs.
    rewrite !elem_of_cons. destruct Hs as [->|[->|[]]]; tauto.
  - reflexivity.
Defined.

(** X10. More skills, more listings, in the same order: when every
    skill of one caller is also a skill of another, the result for the
    first is a subsequence of the result for the second. *)
Theorem find_jobs_monotone_sublist
    (g : Globals) (user_skills more_skills : list string)
    (location_ : option string) :
  user_skills ⊆ more_skills →
  returns (find_jobs user_skills location_) g
    `sublist_of` returns (find_jobs more_skills location_) g.
Proof.
  intros Hsub. unfold returns. rewrite !find_jobs_run. simpl.
  apply sublist_filter_impl. intros job _. unfold job_matches.
  rewrite !andb_true_iff, !skills_test. intros [Hs Hl]. split; [|done].
  intros s Hin. by apply Hsub, Hs.
Qed.

Lemma find_jobs_monotone_sublist_witness :
  returns (find_jobs ["SQL"; "Python"] None) module_globals
    `sublist_of` returns (find_jobs ["Excel"; "Python"; "SQL"] None) module_globals.
Proof.
  apply (find_jobs_monotone_sublist module_globals
           ["SQL"; "Python"] ["Excel"; "Python"; "SQL"] None).
  intros s Hs. rewrite !elem_of_cons, elem_of_nil in Hs.
  rewrite !elem_of_cons. destruct Hs as [->|[->|[]]]; tauto.
Defined.

(** X11. Only which skills the caller lists matters to [find_jobs], not
    their order or repetition. *)
Theorem find_jobs_set
    (g : Globals) (user_skills user_skills' : list string)
    (location_ : option string) :
  (∀ s, s ∈ user_skills ↔ s ∈ user_skills') →
  returns (find_jobs user_skills location_) g
  = returns (find_jobs user_skills' location_) g.
Proof.
  intros Hsame. unfold returns. rewrite !find_jobs_run. simpl.
  apply list_filter_iff. intros job. unfold job_matches.
  rewrite !andb_true_iff, !skills_test.
  assert (skills job ⊆ user_skills ↔ skills job ⊆ user_skills') as ->; [|done].
  split; intros H s Hs; apply Hsame, H, Hs.
Qed.

Lemma find_jobs_set_witness :
  returns (find_jobs ["SQL"; "Python"; "SQL"] (Some "remote")) module_globals
  = returns (find_jobs ["Python"; "SQL"] (Some "remote")) module_globals.
Proof.
  apply (find_jobs_set module_globals ["SQL"; "Python"; "SQL"] ["Python"; "SQL"]
           (Some "remote")).
  intros s. rewrite !elem_of_cons, elem_of_nil. tauto.
Defined.

(** X12. A caller without skills is offered only listings that require
    none. *)
Theorem find_jobs_no_skills
    (g : Globals) (location_ : option string) (job : Job) :
  job ∈ returns (find_jobs [] location_) g → skills job = [].
Proof.
  unfold returns. rewrite find_jobs_run. simpl.
  intros [Hm _]%list_elem_of_filter. unfold job_matches in Hm.
  apply andb_true_iff in Hm as [Hs _]. apply skills_test in Hs.
  destruct (skills job) as [|s l]; [done|].
  assert (s ∈ @nil string) as Hin by (apply Hs; left). by apply elem_of_nil in Hin.
Qed.

Lemma find_jobs_no_skills_witness :
  skills (mkJob "Intern" "TechCorp" "Remote" []) = [].
Proof.
  apply (find_jobs_no_skills
           (mkGlobals ∅ [mkJob "Intern" "TechCorp" "Remote" [];
                         mkJob "Web Developer" "WebWorld" "New York" ["React"]] ∅)
           (Some "remote")).
  vm_compute. left.
Defined.

(** ** Course recommendation: any catalog, and requests put together *)

Lemma catalog_entry_Some g s r :
  catalog_entry g s = Some r ↔
  skill r = s ∧ courses r ≠ [] ∧ COURSES g !! s = Some (courses r).
Proof.
  unfold catalog_entry.
  destruct (COURSES g !! s) as [[|c cs]|]; destruct r as [s' cs']; simpl.
  - split; [done|]. by intros (_ & Hne & [= <-]).
  - split; [by intros [= <- <-] | by intros (-> & _ & [= <-])].
  - split; [done | by intros (_ & _ & ?)].
Qed.

(** X13. Whatever the catalog holds, every entry [recommend_courses]
    returns is for a requested skill, carries the catalog's courses for
    it, and these are never the empty list: a skill whose catalog entry
    is empty is left out like a skill without entry.  The skills of the
    entries form a subsequence of the request. *)
Theorem recommend_courses_entries (g : Globals) (missing_skills : list string) :
  let out := returns (recommend_courses missing_skills) g in
  (skill <$> out) `sublist_of` missing_skills
  ∧ (∀ r, r ∈ out ↔
          skill r ∈ missing_skills ∧ courses r ≠ []
          ∧ COURSES g !! skill r = Some (courses r)).
Proof.
  intros out. subst out. unfold returns. rewrite recommend_courses_run. simpl.
  split.
  - induction missing_skills as [|s l IH]; [done|]. cbn [omap list_omap].
    destruct (catalog_entry g s) as [r|] eqn:Hr.
    + apply catalog_entry_Some in Hr as [<- _]. by apply sublist_skip.
    + by apply sublist_cons.
  - intros r. rewrite list_elem_of_omap. split.
    + intros (s & Hs & Hr). apply catalog_entry_Some in Hr as (<- & ? & ?). done.
    + intros (Hs & Hne & Hc). exists (skill r). split; [done|].
      by apply catalog_entry_Some.
Qed.

(** X14. Requests can be split and put together: the answer to two
    requests joined is the two answers joined. *)
Theorem recommend_courses_app (g : Globals) (skills1 skills2 : list string) :
  returns (recommend_courses (skills1 ++ skills2)) g
  = returns (recommend_courses skills1) g ++ returns (recommend_courses skills2) g.
Proof. unfold returns. rewrite !recommend_courses_run. simpl. apply omap_app. Qed.

(** X15. Courses recommended for a skill gap are courses for the gap:
    when the missing skills of an answer of [get_missing_skills] are
    passed on to [recommend_courses], every entry is for a skill the job
    requires and the caller lacks. *)
Theorem recommend_courses_for_gap
    (g : Globals) (user_skills : list string) (target_job : string)
    (missing : list string) (r : Recommendation) :
  returns (get_missing_skills user_skills target_job) g !! "missing_skills"
    = Some (StrList missing) →
  r ∈ returns (recommend_courses missing) g →
  (skill r ∉ user_skills)
  ∧ (∃ required,
       JOB_SKILLS g !! lower target_job = Some required ∧ skill r ∈ required).
Proof.
  intros Hgap Hr.
  apply get_missing_skills_missing_inv in Hgap as (required & Hjob & _ & ->).
  unfold returns in Hr. rewrite recommend_courses_run in Hr. simpl in Hr.
  apply list_elem_of_omap in Hr as (s & Hs & Hr).
  apply catalog_entry_Some in Hr as (<- & _).
  apply list_elem_of_filter in Hs as [Hn Hs]. eauto.
Qed.

Lemma recommend_courses_for_gap_witness :
  (skill (mkRecommendation "Pandas"
           ["Data Analysis with Pandas (YouTube) - https://example.com/pandas"])
    ∉ ["Python"; "SQL"])
  ∧ (∃ required,
       JOB_SKILLS module_globals !! lower "Data Scientist" = Some required
       ∧ skill (mkRecommendation "Pandas"
                  ["Data Analysis with Pandas (YouTube) - https://example.com/pandas"])
         ∈ required).
Proof.
  apply (recommend_courses_for_gap module_globals ["Python"; "SQL"] "Data Scientist"
           ["Statistics"; "Machine Learning"; "Pandas"]).
  - vm_compute. reflexivity.
  - vm_compute. right. left.
Defined.

(** ** The result dispatch, further *)

Lemma all_JobListing (l : list object) :
  forallb isinstance_JobListing l = true ↔ ∃ l', l = OJobListing <$> l'.
Proof.
  induction l as [|o l IH]; simpl.
  - split; [by exists [] | done].
  - rewrite andb_true_iff, IH. split.
    + intros [Ho [l' ->]]. destruct o as [| |x| |]; try done. by exists (x :: l').
    + intros [[|x l'] [= -> ->]]. eauto.
Qed.

Lemma all_CourseRecommendation (l : list object) :
  forallb isinstance_CourseRecommendation l = true
  ↔ ∃ l', l = OCourseRecommendation <$> l'.
Proof.
  induction l as [|o l IH]; simpl.
  - split; [by exists [] | done].
  - rewrite andb_true_iff, IH. split.
    + intros [Ho [l' ->]]. destruct o as [| | |x|]; try done. by exists (x :: l').
    + intros [[|x l'] [= -> ->]]. eauto.
Qed.

(** X16. A [SkillGap] passes no list test, and the one output that
    passes both list tests is the empty list: every other output is
    accepted by at most one of the three tests of the dispatch. *)
Theorem tests_overlap_iff (output : object) :
  (test_skill_gap output = true →
     test_job_listings output = false
     ∧ test_course_recommendations output = false)
  ∧ (test_job_listings output = true ∧ test_course_recommendations output = true
     ↔ output = OList []).
Proof.
  unfold test_skill_gap, test_job_listings, test_course_recommendations, all.
  destruct output as [s|x|x|x|[|o l]]; simpl;
    (split; [done|]); (split; [|done]); try (by intros [? ?]).
  destruct o; simpl; by intros [? ?].
Qed.

(** X17. Which section [main] reports, by the output: the skill-gap
    section exactly for a [SkillGap]; the job-listing section exactly for
    a list of [JobListing]s, the empty list among them; the
    course-recommendation section exactly for a list of
    [CourseRecommendation]s that is not empty; anything else, a list
    that mixes the two for one, is printed as it is. *)
Theorem main_section_spec (output : object) :
  (main_section output = SkillGapAnalysis ↔ ∃ x, output = OSkillGap x)
  ∧ (main_section output = JobListings
     ↔ ∃ l, output = OList (OJobListing <$> l))
  ∧ (main_section output = CourseRecommendations
     ↔ ∃ x l, output = OList (OCourseRecommendation <$> x :: l)).
Proof.
  assert (∀ l, (∃ l', OList l = OList (OJobListing <$> l'))
               ↔ forallb isinstance_JobListing l = true) as Hjobs.
  { intros l. rewrite all_JobListing. split; intros [l' H]; exists l'; congruence. }
  assert (∀ l, (∃ x l', OList l = OList (OCourseRecommendation <$> x :: l'))
               ↔ forallb isinstance_JobListing l = false
                 ∧ forallb isinstance_CourseRecommendation l = true) as Hcourses.
  { intros l. rewrite all_CourseRecommendation. split.
    - intros (x & l' & [= ->]). split; [done | by exists (x :: l')].
    - intros [Hj [[|x l'] ->]]; [done | eauto]. }
  unfold main_section, test_skill_gap, test_job_listings,
    test_course_recommendations, all.
  destruct output as [s|x|x|x|l]; simpl.
  1, 3, 4: by repeat split; try done; intros H;
             repeat match goal with H : ∃ _, _ |- _ => destruct H end.
  - repeat split; try done; eauto; intros H;
      by repeat match goal with H : ∃ _, _ |- _ => destruct H end.
  - rewrite Hjobs, Hcourses.
    destruct (forallb isinstance_JobListing l),
      (forallb isinstance_CourseRecommendation l);
      repeat split; try done; try (by intros [? ?]); by intros (? & ?).
Qed.

(** ** What [main] prints for an output *)

Lemma print_jobs_cons (x : Models.JobListing) (l : list Models.JobListing) (n : nat) :
  print_jobs (enumerate (OJobListing <$> x :: l) n)
  = ((pretty n +:+ ". " +:+ Models.title x +:+ " at " +:+ Models.company x
        +:+ " (" +:+ Models.location x +:+ ")")
       :: ("   Required Skills: " +:+ join ", " (Models.requirements x))
       :: (print_jobs (enumerate (OJobListing <$> l) (S n))).1,
     (print_jobs (enumerate (OJobListing <$> l) (S n))).2).
Proof. reflexivity. Qed.

Lemma print_jobs_listings (l : list Models.JobListing) (n : nat) :
  (print_jobs (enumerate (OJobListing <$> l) n)).2 = true
  ∧ length (print_jobs (enumerate (OJobListing <$> l) n)).1 = 2 * length l.
Proof.
  revert n. induction l as [|x l IH]; intros n; [done|].
  destruct (IH (S n)) as [Hok Hlen]. rewrite print_jobs_cons.
  cbn [fst snd length]. rewrite Hlen. split; [done | lia].
Qed.

Lemma print_jobs_lookup (l : list Models.JobListing) (n k : nat) x :
  l !! k = Some x →
  (print_jobs (enumerate (OJobListing <$> l) n)).1 !! (2 * k)
    = Some (pretty (n + k) +:+ ". " +:+ Models.title x +:+ " at "
            +:+ Models.company x +:+ " (" +:+ Models.location x +:+ ")")
  ∧ (print_jobs (enumerate (OJobListing <$> l) n)).1 !! (S (2 * k))
    = Some ("   Required Skills: " +:+ join ", " (Models.requirements x)).
Proof.
  revert n k. induction l as [|y l IH]; intros n k Hk; [done|].
  rewrite print_jobs_cons. cbn [fst]. destruct k as [|k].
  - injection Hk as ->. by rewrite Nat.add_0_r.
  - replace (2 * S k) with (S (S (2 * k))) by lia.
    replace (n + S k) with (S n + k) by lia.
    apply (IH (S n) k Hk).
Qed.


Lemma print_recommendations_ok (l : list Models.CourseRecommendation) :
  (print_recommendations (OCourseRecommendation <$> l)).2 = true.
Proof. induction l as [|x l IH]; [done|]. cbn. exact IH. Qed.


(** No attribute access of the dispatch raises: the test of each branch
    makes the accesses of its body safe. *)
Lemma print_output_ok (repr_ : object → string) (output : object) :
  (print_output repr_ output).2 = true.
Proof.
  unfold print_output.
  destruct (test_skill_gap output) eqn:Hs; [by destruct output|].
  unfold test_job_listings, test_course_recommendations, all.
  destruct output as [s|x|x|x|l]; try done. simpl.
  destruct (forallb isinstance_JobListing l) eqn:Hj.
  - apply all_JobListing in Hj as [l' ->]. apply print_jobs_listings.
  - destruct (forallb isinstance_CourseRecommendation l) eqn:Hc; [|done].
    apply all_CourseRecommendation in Hc as [l' ->].
    apply print_recommendations_ok.
Qed.

(** X18. For a list of job listings, the empty one included, [main]
    prints the heading and then two lines per listing, in the order of
    the list, and nothing else: the listing at position [k] (from 0) is
    printed with the number [k + 1] in front of its title, company and
    location, followed by the line of its required skills. *)
Theorem print_job_listings
    (repr_ : object → string) (l : list Models.JobListing) :
  let lines := (print_output repr_ (OList (OJobListing <$> l))).1 in
  length lines = 1 + 2 * length l
  ∧ lines !! 0 = Some job_listings_heading
  ∧ (∀ k x, l !! k = Some x →
       lines !! (1 + 2 * k)
       = Some (pretty (k + 1) +:+ ". " +:+ Models.title x +:+ " at "
               +:+ Models.company x +:+ " (" +:+ Models.location x +:+ ")")
       ∧ lines !! (2 + 2 * k)
         = Some ("   Required Skills: " +:+ join ", " (Models.requirements x))).
Proof.
  intros lines. subst lines. unfold print_output.
  pose proof (test_job_listings_list l) as Ht. rewrite Ht.
  assert (test_skill_gap (OList (OJobListing <$> l)) = false) as -> by done.
  cbn [elements_of then_ fst snd app].
  destruct (print_jobs_listings l 1) as [_ Hlen].
  cbn [length]. rewrite Hlen. split; [done|]. split; [done|].
  intros k x Hk. destruct (print_jobs_lookup l 1 k x Hk) as [H1 H2].
  replace (k + 1) with (1 + k) by lia.
  replace (1 + 2 * k) with (S (2 * k)) by lia.
  replace (2 + 2 * k) with (S (S (2 * k))) by lia. done.
Qed.

Lemma print_job_listings_witness :
  let l := [Models.mkJobListing "Junior Data Scientist" "TechCorp" "Remote"
              ["Python"; "SQL"];
            Models.mkJobListing "Data Analyst" "DataWorks" "San Francisco"
              ["Excel"; "SQL"; "Python"]] in
  let lines := (print_output (λ _, "") (OList (OJobListing <$> l))).1 in
  length lines = 5
  ∧ lines !! 3 = Some "2. Data Analyst at DataWorks (San Francisco)"
  ∧ lines !! 4 = Some "   Required Skills: Excel, SQL, Python".
Proof.
  intros l lines.
  destruct (print_job_listings (λ _, "") l) as (Hlen & _ & Hlines).
  split; [exact Hlen|].
  exact (Hlines 1 _ eq_refl).
Defined.



(** ** The loop of [main] *)

Section MainLoop.
Context {E : Type}.
Variable run : string → E + object.
Variable repr_ : object → string.

(** Queries that run without an exception are printed one after the
    other, and the loop goes on with the rest. *)
Lemma main_loop_app (answer : string → object) (before rest : list string) :
  (∀ query, query ∈ before → run query = inr (answer query)) →
  main_loop run repr_ (before ++ rest)
  = (concat ((λ query, print_iteration repr_ query (answer query)) <$> before)
       ++ (main_loop run repr_ rest).1,
     (main_loop run repr_ rest).2).
Proof.
  induction before as [|query before IH]; intros Hrun.
  - simpl. by destruct (main_loop run repr_ rest).
  - cbn [app main_loop]. rewrite (Hrun query) by left.
    rewrite print_output_ok, IH by (intros q Hq; apply Hrun; by right).
    cbn [fst snd fmap list_fmap concat]. unfold print_iteration.
    by rewrite <- !app_assoc.
Qed.

End MainLoop.

(** X20. When [Runner.run] raises for no query, the loop runs to its
    end and prints, query after query in the order given, the two
    opening lines, the response line and the report of the output. *)
Theorem main_loop_finishes
    {E : Type} (run : string → E + object) (repr_ : object → string)
    (answer : string → object) (queries : list string) :
  (∀ query, query ∈ queries → run query = inr (answer query)) →
  main_loop run repr_ queries
  = (concat ((λ query, print_iteration repr_ query (answer query)) <$> queries),
     Finished).
Proof.
  intros Hrun. rewrite <- (app_nil_r queries) at 1.
  rewrite (main_loop_app run repr_ answer) by done. simpl.
  by rewrite app_nil_r.
Qed.

Lemma main_loop_finishes_witness :
  (main (E := string) (λ _, inr (OStr "Hello!")) (λ _, "")).2 = Finished.
Proof.
  unfold main.
  rewrite (main_loop_finishes (E := string) (λ _, inr (OStr "Hello!")) (λ _, "")
             (λ _, OStr "Hello!") queries); [reflexivity|].
  intros query _. reflexivity.
Defined.

(** X21. The first query for which [Runner.run] raises ends the loop
    with that exception: the queries before it are printed in full, of
    the failing query only the two opening lines, and nothing of the
    queries after it, whatever [Runner.run] would do for them. *)
Theorem main_loop_first_failure
    {E : Type} (run : string → E + object) (repr_ : object → string)
    (answer : string → object) (before after : list string)
    (query : string) (e : E) :
  (∀ q, q ∈ before → run q = inr (answer q)) →
  run query = inl e →
  main_loop run repr_ (before ++ query :: after)
  = (concat ((λ q, print_iteration repr_ q (answer q)) <$> before)
       ++ print_query query,
     RunnerRaised e).
Proof.
  intros Hrun Hfail. rewrite (main_loop_app run repr_ answer) by done.
  simpl. by rewrite Hfail.
Qed.

Lemma main_loop_first_failure_witness :
  let run := λ query,
    if bool_decide (query = "I know Python and SQL. Can you find me a job?")
    then inl "MaxTurnsExceeded" else inr (OStr "Hello!") in
  main run (λ _, "")
  = (print_iteration (λ _, "") "I want to become a data scientist" (OStr "Hello!")
       ++ print_query "I know Python and SQL. Can you find me a job?",
     RunnerRaised "MaxTurnsExceeded").
Proof.
  intros run.
  change (main run (λ _, ""))
    with (main_loop run (λ _, "")
            (["I want to become a data scientist"]
               ++ "I know Python and SQL. Can you find me a job?"
               :: ["How can I learn React and Pandas?"])).
  rewrite (main_loop_first_failure run (λ _, "") (λ _, OStr "Hello!")
             ["I want to become a data scientist"]
             ["How can I learn React and Pandas?"]
             "I know Python and SQL. Can you find me a job?" "MaxTurnsExceeded").
  - cbn [fmap list_fmap concat]. by rewrite app_nil_r.
  - intros q Hq. apply list_elem_of_singleton in Hq as ->. reflexivity.
  - reflexivity.
Defined.

(** X22. The loop never ends in an [AttributeError]: whatever
    [Runner.run] returns, list or not, typed or not, every attribute the
    report reads is read from an object that has it. *)
Theorem main_loop_no_attribute_error
    {E : Type} (run : string → E + object) (repr_ : object → string)
    (queries : list string) :
  (main_loop run repr_ queries).2 ≠ AttributeError.
Proof.
  induction queries as [|query queries IH]; [done|]. simpl.
  destruct (run query) as [e|output]; [done|].
  by rewrite print_output_ok.
Qed.

(** ** Settings *)

Lemma load_settings_cases (environ : gmap string string) :
  (∃ b a m,
      (environ !! "BASE_URL" = Some b ∧ b ≠ "")
      ∧ (environ !! "API_KEY" = Some a ∧ a ≠ "")
      ∧ (environ !! "MODEL_NAME" = Some m ∧ m ≠ "")
      ∧ load_settings environ = inr (mkSettings b a m))
  ∨ ((environ !! "BASE_URL" = None ∨ environ !! "BASE_URL" = Some ""
      ∨ environ !! "API_KEY" = None ∨ environ !! "API_KEY" = Some ""
      ∨ environ !! "MODEL_NAME" = None ∨ environ !! "MODEL_NAME" = Some "")
     ∧ load_settings environ
       = inl "Please set BASE_URL, API_KEY, and MODEL_NAME.").
Proof.
  unfold load_settings, getenv.
  destruct (environ !! "BASE_URL") as [[|c1 s1]|];
    [right; split; [tauto | done] | | right; split; [tauto | done]].
  destruct (environ !! "API_KEY") as [[|c2 s2]|];
    [right; split; [tauto | done] | | right; split; [tauto | done]].
  destruct (environ !! "MODEL_NAME") as [[|c3 s3]|];
    [right; split; [tauto | done] | | right; split; [tauto | done]].
  left. eexists _, _, _. done.
Qed.

(** X23. The module loads exactly when [BASE_URL], [API_KEY] and
    [MODEL_NAME] are all set to strings that are not empty, and then
    takes them as they are; when one of them is not set, or set to the
    empty string, loading raises the [ValueError] that asks for all
    three. *)
Theorem load_settings_spec (environ : gmap string string) :
  (∀ s, load_settings environ = inr s ↔
        environ !! "BASE_URL" = Some (BASE_URL s) ∧ BASE_URL s ≠ ""
        ∧ environ !! "API_KEY" = Some (API_KEY s) ∧ API_KEY s ≠ ""
        ∧ environ !! "MODEL_NAME" = Some (MODEL_NAME s) ∧ MODEL_NAME s ≠ "")
  ∧ (∀ message, load_settings environ = inl message ↔
        message = "Please set BASE_URL, API_KEY, and MODEL_NAME."
        ∧ ∃ name, name ∈ ["BASE_URL"; "API_KEY"; "MODEL_NAME"]
                  ∧ (environ !! name = None ∨ environ !! name = Some "")).
Proof.
  destruct (load_settings_cases environ)
    as [(b & a & m & [Hb ?] & [Ha ?] & [Hm ?] & ->) | [Hunset ->]].
  - split.
    + intros [b' a' m']. simpl. rewrite Hb, Ha, Hm. split.
      * by intros [= <- <- <-].
      * by intros ([= <-] & _ & [= <-] & _ & [= <-] & _).
    + intros message. split; [done|]. intros (_ & name & Hname & Hname').
      rewrite !elem_of_cons, elem_of_nil in Hname.
      destruct Hname as [->|[->|[->|[]]]]; destruct Hname'; congruence.
  - split.
    + intros s. split; [done|]. intros (? & ? & ? & ? & ? & ?).
      destruct Hunset as [?|[?|[?|[?|[?|?]]]]]; congruence.
    + intros message. split.
      * intros [= <-]. split; [done|].
        destruct Hunset as [?|[?|[?|[?|[?|?]]]]];
          [exists "BASE_URL" | exists "BASE_URL" | exists "API_KEY"
          |exists "API_KEY" | exists "MODEL_NAME" | exists "MODEL_NAME"];
          (split; [rewrite !elem_of_cons; tauto | tauto]).
      * by intros [-> _].
Qed.
